(** * EVC-Map translator and lifecycle (adtran_olt/flow/evc_map.py)

    A shallow embedding of the [EVCMap] class: the connection enumeration and
    its rendering, the binding decoder run by the constructor, the lifecycle
    operations (install, fan-out install, remove, enable, disable, delete) and
    the bulk reclaimer [remove_all].

    Python objects that are shared and mutated (the circuit, [EVC]) live in a
    store indexed by reference; the descriptor itself is threaded as the
    [self] component of the state.  Exceptions are results of the monad, and
    a raise keeps every mutation made before it, as in Python.  A [yield] on a
    transport request is modelled as the request completing at once, with the
    reply or the failure the device gives. *)

From stdpp Require Import gmap strings list fin_maps.
From Stdlib Require Import ZArith Ascii DecimalString DecimalZ DecimalPos.

Local Open Scope Z_scope.
Local Open Scope string_scope.

(** ** Exceptions and the state-and-exception monad *)

Inductive exn : Type :=
| ValueError (msg : string)
| NotImplementedError (msg : string)
| IndexError
| AttributeError
| TypeError
| KeyError
| OtherError (msg : string).

Inductive Res (A : Type) : Type :=
| Ok (a : A)
| Raise (e : exn).
Arguments Ok {A} a.
Arguments Raise {A} e.

Definition M (S A : Type) : Type := S -> Res A * S.

Definition ret {S A} (a : A) : M S A := fun s => (Ok a, s).

Definition raise {S A} (e : exn) : M S A := fun s => (Raise e, s).

Definition bind {S A B} (c : M S A) (k : A -> M S B) : M S B :=
  fun s => match c s with
           | (Ok a, s') => k a s'
           | (Raise e, s') => (Raise e, s')
           end.

(** [try: c except Exception as e: h e] *)
Definition try_except {S A} (c : M S A) (h : exn -> M S A) : M S A :=
  fun s => match c s with
           | (Ok a, s') => (Ok a, s')
           | (Raise e, s') => h e s'
           end.

(** [try: c finally: f]; the clean-up runs on both exits, and an exception
    raised by the body is raised again after it. *)
Definition try_finally {S A} (c : M S A) (f : M S unit) : M S A :=
  fun s => match c s with
           | (r, s') => match f s' with
                        | (Ok _, s'') => (r, s'')
                        | (Raise e, s'') => (Raise e, s'')
                        end
           end.

Definition lift {S A} (r : Res A) : M S A := fun s => (r, s).

Definition gets {S A} (f : S -> A) : M S A := fun s => (Ok (f s), s).

Definition modify {S} (f : S -> S) : M S unit := fun s => (Ok tt, f s).

Declare Scope py_scope.
Delimit Scope py_scope with py.
Notation "x <- c ;; k" := (bind c (fun x => k))
  (at level 100, c at next level, right associativity) : py_scope.
Notation "c ;; k" := (bind c (fun _ => k))
  (at level 100, right associativity) : py_scope.
Local Open Scope py_scope.

(** ** Python string formatting *)

(** The double-quote character, for the XML attributes. *)
Definition dq : string := String (Ascii.ascii_of_nat 34) EmptyString.

(** ['{}'.format(x)] for an integer. *)
Definition fmt_Z (x : Z) : string := NilZero.string_of_int (Z.to_int x).

(** ['{}'.format(x)] for a value that may be [None]. *)
Definition fmt_opt {A} (f : A -> string) (x : option A) : string :=
  match x with
  | Some a => f a
  | None => "None"
  end.

Definition EVC_MAP_NAME_FORMAT (in_port flow_id : Z) : string :=
  "VOLTHA-" +:+ fmt_Z in_port +:+ "-" +:+ fmt_Z flow_id.

Definition EVC_MAP_NAME_REGEX_ALL : string := "VOLTHA-*".

(** ** EVCMap.EvcConnection *)

Module EvcConnection.

Inductive t : Type := NO_EVC_CONNECTION | EVC | DISCARD.

Definition DEFAULT : t := NO_EVC_CONNECTION.

Definition eqb (a b : t) : bool :=
  match a, b with
  | NO_EVC_CONNECTION, NO_EVC_CONNECTION => true
  | EVC, EVC => true
  | DISCARD, DISCARD => true
  | _, _ => false
  end.

(** [xml(value)]: the argument may be [None]. *)
Definition xml (value : option t) : Res string :=
  let value := match value with
               | None => DEFAULT
               | Some v => v
               end in
  if eqb value DISCARD then Ok "<no-evc-connection/>"
  else if eqb value DISCARD then Ok "discard/"
  else Raise (ValueError "Invalid EvcConnection enumeration").

End EvcConnection.

Module PriorityOption.

Inductive t : Type := INHERIT_PRIORITY | EXPLICIT_PRIORITY.

Definition DEFAULT : t := INHERIT_PRIORITY.

End PriorityOption.

(** ** Collaborators: transport, topology, flow rule *)

(** What [xmltodict.parse] returns: nested ordered dictionaries, lists,
    strings and [None] (an empty element). *)
#[local] Set Warnings "-register-all".
Inductive XVal : Type :=
| XNone
| XStr (s : string)
| XDict (d : list (string * XVal))
| XList (l : list XVal).
#[local] Set Warnings "register-all".

(** An RPC reply of the NETCONF client.  [data_xml] stands for the reply's
    document as [xmltodict.parse] reads it: the parsed value, or the
    exception the parser raises on it. *)
Record RpcReply : Type := {
  ok : bool;
  error : option string;
  data_xml : Res XVal
}.

Inductive Request : Type :=
| Get (filter : string)
| EditConfig (xml : string) (default_operation : option string) (lock_timeout : Z).

(** The completion of a request: a reply, or a failure (the [yield] raises,
    the Deferred fires its errback). *)
Inductive Outcome : Type :=
| Reply (r : RpcReply)
| Failure (e : exn).

(** The NETCONF client.  The device's answer may depend on every request
    sent before, which is the first argument.  [edit_config] is only ever
    called under a [yield] or returned from a callback, where an exception
    raised by the call itself and a Deferred that fails are handled alike:
    both are a [Failure].  [get] is called by [remove_all] outside any
    handler, so the call itself may raise ([Raise]) before there is a
    Deferred to fire. *)
Record NetconfClient : Type := {
  get : list Request -> string -> Res Outcome;
  edit_config : list Request -> string -> option string -> Z -> Outcome
}.

(** [self._gem_ids]: the dictionary ONU id -> GEM ids that the PON port
    gives, in its iteration order, or the empty [set()] of the decoder. *)
Inductive GemIds : Type :=
| GemDict (d : list (Z * list Z))
| GemSet.

Record PonPort : Type := {
  gem_ids : bool -> Res (list (Z * list Z))
}.

Record Handler : Type := {
  is_pon_port : Z -> Res bool;
  is_uni_port : Z -> Res bool;
  get_port_name : Z -> Res (option string);
  get_southbound_port : Z -> Res (option PonPort);
  netconf_client : NetconfClient
}.

(** Modelled from the spec: the flow-rule class [FlowEntry] (flow_entry.py)
    is not part of the sources; its fields are the ones the decoder reads
    (ingress port, flow id, ether-type, IP protocol, destination IPv4, UDP
    ports, inner VLAN id, pushed-tag list with protocol identifiers, pop
    count), and the protocol numbers are the standard ones. *)
Module FlowEntry.

Module EtherType.
Definition EAPOL : Z := 0x888E.
Definition IPv4 : Z := 0x0800.
End EtherType.

Module IpProtocol.
Definition UDP : Z := 17.
End IpProtocol.

Record t : Type := {
  in_port : Z;
  flow_id : Z;
  handler : Handler;
  eth_type : option Z;
  ip_protocol : option Z;
  ipv4_dst : option Z;
  udp_dst : option Z;
  udp_src : option Z;
  inner_vid : option Z;
  push_vlan_id : list Z;
  push_vlan_tpid : list Z;
  pop_vlan : Z
}.

End FlowEntry.

(** Modelled from the spec: the circuit class [EVC] (evc.py) is not part of
    the sources.  The spec gives it a name, the flow entry with its pop
    count, the mutable tag-manipulation, switching-mode and outer-protocol
    fields, the CE-VLAN preservation flag, and a collection of descriptors
    keyed by name with add and remove registration.  The collection maps a
    descriptor's name to the descriptor's identity. *)
Module EVC.

Inductive Men2UniManipulation : Type := SYMMETRIC | POP_OUT_TAG_ONLY.

Inductive SwitchingMethod : Type := SINGLE_TAGGED | DOUBLE_TAGGED.

Record t : Type := {
  name : string;
  flow_entry : option FlowEntry.t;
  ce_vlan_preservation : bool;
  men_to_uni_tag_manipulation : Men2UniManipulation;
  switching_method : SwitchingMethod;
  stpid : option Z;
  evc_maps : gmap (option string) nat
}.

Definition set_ce_vlan_preservation (v : bool) (e : t) : t :=
  {| name := name e; flow_entry := flow_entry e; ce_vlan_preservation := v;
     men_to_uni_tag_manipulation := men_to_uni_tag_manipulation e;
     switching_method := switching_method e; stpid := stpid e;
     evc_maps := evc_maps e |}.

Definition set_men_to_uni_tag_manipulation (v : Men2UniManipulation) (e : t) : t :=
  {| name := name e; flow_entry := flow_entry e;
     ce_vlan_preservation := ce_vlan_preservation e;
     men_to_uni_tag_manipulation := v;
     switching_method := switching_method e; stpid := stpid e;
     evc_maps := evc_maps e |}.

Definition set_switching_method (v : SwitchingMethod) (e : t) : t :=
  {| name := name e; flow_entry := flow_entry e;
     ce_vlan_preservation := ce_vlan_preservation e;
     men_to_uni_tag_manipulation := men_to_uni_tag_manipulation e;
     switching_method := v; stpid := stpid e; evc_maps := evc_maps e |}.

Definition set_stpid (v : option Z) (e : t) : t :=
  {| name := name e; flow_entry := flow_entry e;
     ce_vlan_preservation := ce_vlan_preservation e;
     men_to_uni_tag_manipulation := men_to_uni_tag_manipulation e;
     switching_method := switching_method e; stpid := v;
     evc_maps := evc_maps e |}.

Definition set_evc_maps (v : gmap (option string) nat) (e : t) : t :=
  {| name := name e; flow_entry := flow_entry e;
     ce_vlan_preservation := ce_vlan_preservation e;
     men_to_uni_tag_manipulation := men_to_uni_tag_manipulation e;
     switching_method := switching_method e; stpid := stpid e;
     evc_maps := v |}.
(** [evc.add_evc_map(evc_map)] and [evc.remove_evc_map(evc_map)], on the
    descriptor's name and identity. *)
Definition add_evc_map (map_name : option string) (map_id : nat) (e : t) : t :=
  set_evc_maps (<[map_name := map_id]> (evc_maps e)) e.

Definition remove_evc_map (map_name : option string) (e : t) : t :=
  set_evc_maps (delete map_name (evc_maps e)) e.

End EVC.

(** ** The descriptor *)

(** [self_id] is the identity of the Python object; the other fields are the
    attributes [__init__] creates. *)
Record EVCMap : Type := {
  self_id : nat;
  _flow : option FlowEntry.t;
  _evc : option nat;
  _gem_ids : option GemIds;
  _is_ingress_map : bool;
  _installed : bool;
  _status_message : option string;
  _name : option string;
  _enabled : bool;
  _uni_port : option string;
  _evc_connection : EvcConnection.t;
  _evc_name : option string;
  _men_priority : PriorityOption.t;
  _men_pri : Z;
  _c_tag : option Z;
  _men_ctag_priority : PriorityOption.t;
  _men_ctag_pri : Z;
  _match_ce_vlan_id : option Z;
  _match_untagged : bool;
  _match_destination_mac_address : option string;
  _match_l2cp : bool;
  _match_broadcast : bool;
  _match_multicast : bool;
  _match_unicast : bool;
  _match_igmp : bool;
  _eth_type : option Z;
  _ip_protocol : option Z;
  _ipv4_dst : option Z;
  _udp_dst : option Z;
  _udp_src : option Z;
  _valid : bool
}.

Definition set_flow (v : option FlowEntry.t) (m : EVCMap) : EVCMap :=
  {| self_id := self_id m; _flow := v; _evc := _evc m;
     _gem_ids := _gem_ids m; _is_ingress_map := _is_ingress_map m;
     _installed := _installed m; _status_message := _status_message m;
     _name := _name m; _enabled := _enabled m; _uni_port := _uni_port m;
     _evc_connection := _evc_connection m; _evc_name := _evc_name m;
     _men_priority := _men_priority m; _men_pri := _men_pri m;
     _c_tag := _c_tag m; _men_ctag_priority := _men_ctag_priority m;
     _men_ctag_pri := _men_ctag_pri m;
     _match_ce_vlan_id := _match_ce_vlan_id m;
     _match_untagged := _match_untagged m;
     _match_destination_mac_address := _match_destination_mac_address m;
     _match_l2cp := _match_l2cp m; _match_broadcast := _match_broadcast m;
     _match_multicast := _match_multicast m;
     _match_unicast := _match_unicast m; _match_igmp := _match_igmp m;
     _eth_type := _eth_type m; _ip_protocol := _ip_protocol m;
     _ipv4_dst := _ipv4_dst m; _udp_dst := _udp_dst m;
     _udp_src := _udp_src m; _valid := _valid m |}.

Definition set_evc (v : option nat) (m : EVCMap) : EVCMap :=
  {| self_id := self_id m; _flow := _flow m; _evc := v;
     _gem_ids := _gem_ids m; _is_ingress_map := _is_ingress_map m;
     _installed := _installed m; _status_message := _status_message m;
     _name := _name m; _enabled := _enabled m; _uni_port := _uni_port m;
     _evc_connection := _evc_connection m; _evc_name := _evc_name m;
     _men_priority := _men_priority m; _men_pri := _men_pri m;
     _c_tag := _c_tag m; _men_ctag_priority := _men_ctag_priority m;
     _men_ctag_pri := _men_ctag_pri m;
     _match_ce_vlan_id := _match_ce_vlan_id m;
     _match_untagged := _match_untagged m;
     _match_destination_mac_address := _match_destination_mac_address m;
     _match_l2cp := _match_l2cp m; _match_broadcast := _match_broadcast m;
     _match_multicast := _match_multicast m;
     _match_unicast := _match_unicast m; _match_igmp := _match_igmp m;
     _eth_type := _eth_type m; _ip_protocol := _ip_protocol m;
     _ipv4_dst := _ipv4_dst m; _udp_dst := _udp_dst m;
     _udp_src := _udp_src m; _valid := _valid m |}.

Definition set_gem_ids (v : option GemIds) (m : EVCMap) : EVCMap :=
  {| self_id := self_id m; _flow := _flow m; _evc := _evc m; _gem_ids := v;
     _is_ingress_map := _is_ingress_map m; _installed := _installed m;
     _status_message := _status_message m; _name := _name m;
     _enabled := _enabled m; _uni_port := _uni_port m;
     _evc_connection := _evc_connection m; _evc_name := _evc_name m;
     _men_priority := _men_priority m; _men_pri := _men_pri m;
     _c_tag := _c_tag m; _men_ctag_priority := _men_ctag_priority m;
     _men_ctag_pri := _men_ctag_pri m;
     _match_ce_vlan_id := _match_ce_vlan_id m;
     _match_untagged := _match_untagged m;
     _match_destination_mac_address := _match_destination_mac_address m;
     _match_l2cp := _match_l2cp m; _match_broadcast := _match_broadcast m;
     _match_multicast := _match_multicast m;
     _match_unicast := _match_unicast m; _match_igmp := _match_igmp m;
     _eth_type := _eth_type m; _ip_protocol := _ip_protocol m;
     _ipv4_dst := _ipv4_dst m; _udp_dst := _udp_dst m;
     _udp_src := _udp_src m; _valid := _valid m |}.

Definition set_installed (v : bool) (m : EVCMap) : EVCMap :=
  {| self_id := self_id m; _flow := _flow m; _evc := _evc m;
     _gem_ids := _gem_ids m; _is_ingress_map := _is_ingress_map m;
     _installed := v; _status_message := _status_message m; _name := _name m;
     _enabled := _enabled m; _uni_port := _uni_port m;
     _evc_connection := _evc_connection m; _evc_name := _evc_name m;
     _men_priority := _men_priority m; _men_pri := _men_pri m;
     _c_tag := _c_tag m; _men_ctag_priority := _men_ctag_priority m;
     _men_ctag_pri := _men_ctag_pri m;
     _match_ce_vlan_id := _match_ce_vlan_id m;
     _match_untagged := _match_untagged m;
     _match_destination_mac_address := _match_destination_mac_address m;
     _match_l2cp := _match_l2cp m; _match_broadcast := _match_broadcast m;
     _match_multicast := _match_multicast m;
     _match_unicast := _match_unicast m; _match_igmp := _match_igmp m;
     _eth_type := _eth_type m; _ip_protocol := _ip_protocol m;
     _ipv4_dst := _ipv4_dst m; _udp_dst := _udp_dst m;
     _udp_src := _udp_src m; _valid := _valid m |}.

Definition set_status_message (v : option string) (m : EVCMap) : EVCMap :=
  {| self_id := self_id m; _flow := _flow m; _evc := _evc m;
     _gem_ids := _gem_ids m; _is_ingress_map := _is_ingress_map m;
     _installed := _installed m; _status_message := v; _name := _name m;
     _enabled := _enabled m; _uni_port := _uni_port m;
     _evc_connection := _evc_connection m; _evc_name := _evc_name m;
     _men_priority := _men_priority m; _men_pri := _men_pri m;
     _c_tag := _c_tag m; _men_ctag_priority := _men_ctag_priority m;
     _men_ctag_pri := _men_ctag_pri m;
     _match_ce_vlan_id := _match_ce_vlan_id m;
     _match_untagged := _match_untagged m;
     _match_destination_mac_address := _match_destination_mac_address m;
     _match_l2cp := _match_l2cp m; _match_broadcast := _match_broadcast m;
     _match_multicast := _match_multicast m;
     _match_unicast := _match_unicast m; _match_igmp := _match_igmp m;
     _eth_type := _eth_type m; _ip_protocol := _ip_protocol m;
     _ipv4_dst := _ipv4_dst m; _udp_dst := _udp_dst m;
     _udp_src := _udp_src m; _valid := _valid m |}.

Definition set_name (v : option string) (m : EVCMap) : EVCMap :=
  {| self_id := self_id m; _flow := _flow m; _evc := _evc m;
     _gem_ids := _gem_ids m; _is_ingress_map := _is_ingress_map m;
     _installed := _installed m; _status_message := _status_message m;
     _name := v; _enabled := _enabled m; _uni_port := _uni_port m;
     _evc_connection := _evc_connection m; _evc_name := _evc_name m;
     _men_priority := _men_priority m; _men_pri := _men_pri m;
     _c_tag := _c_tag m; _men_ctag_priority := _men_ctag_priority m;
     _men_ctag_pri := _men_ctag_pri m;
     _match_ce_vlan_id := _match_ce_vlan_id m;
     _match_untagged := _match_untagged m;
     _match_destination_mac_address := _match_destination_mac_address m;
     _match_l2cp := _match_l2cp m; _match_broadcast := _match_broadcast m;
     _match_multicast := _match_multicast m;
     _match_unicast := _match_unicast m; _match_igmp := _match_igmp m;
     _eth_type := _eth_type m; _ip_protocol := _ip_protocol m;
     _ipv4_dst := _ipv4_dst m; _udp_dst := _udp_dst m;
     _udp_src := _udp_src m; _valid := _valid m |}.

Definition set_enabled (v : bool) (m : EVCMap) : EVCMap :=
  {| self_id := self_id m; _flow := _flow m; _evc := _evc m;
     _gem_ids := _gem_ids m; _is_ingress_map := _is_ingress_map m;
     _installed := _installed m; _status_message := _status_message m;
     _name := _name m; _enabled := v; _uni_port := _uni_port m;
     _evc_connection := _evc_connection m; _evc_name := _evc_name m;
     _men_priority := _men_priority m; _men_pri := _men_pri m;
     _c_tag := _c_tag m; _men_ctag_priority := _men_ctag_priority m;
     _men_ctag_pri := _men_ctag_pri m;
     _match_ce_vlan_id := _match_ce_vlan_id m;
     _match_untagged := _match_untagged m;
     _match_destination_mac_address := _match_destination_mac_address m;
     _match_l2cp := _match_l2cp m; _match_broadcast := _match_broadcast m;
     _match_multicast := _match_multicast m;
     _match_unicast := _match_unicast m; _match_igmp := _match_igmp m;
     _eth_type := _eth_type m; _ip_protocol := _ip_protocol m;
     _ipv4_dst := _ipv4_dst m; _udp_dst := _udp_dst m;
     _udp_src := _udp_src m; _valid := _valid m |}.

Definition set_uni_port (v : option string) (m : EVCMap) : EVCMap :=
  {| self_id := self_id m; _flow := _flow m; _evc := _evc m;
     _gem_ids := _gem_ids m; _is_ingress_map := _is_ingress_map m;
     _installed := _installed m; _status_message := _status_message m;
     _name := _name m; _enabled := _enabled m; _uni_port := v;
     _evc_connection := _evc_connection m; _evc_name := _evc_name m;
     _men_priority := _men_priority m; _men_pri := _men_pri m;
     _c_tag := _c_tag m; _men_ctag_priority := _men_ctag_priority m;
     _men_ctag_pri := _men_ctag_pri m;
     _match_ce_vlan_id := _match_ce_vlan_id m;
     _match_untagged := _match_untagged m;
     _match_destination_mac_address := _match_destination_mac_address m;
     _match_l2cp := _match_l2cp m; _match_broadcast := _match_broadcast m;
     _match_multicast := _match_multicast m;
     _match_unicast := _match_unicast m; _match_igmp := _match_igmp m;
     _eth_type := _eth_type m; _ip_protocol := _ip_protocol m;
     _ipv4_dst := _ipv4_dst m; _udp_dst := _udp_dst m;
     _udp_src := _udp_src m; _valid := _valid m |}.

Definition set_evc_connection (v : EvcConnection.t) (m : EVCMap) : EVCMap :=
  {| self_id := self_id m; _flow := _flow m; _evc := _evc m;
     _gem_ids := _gem_ids m; _is_ingress_map := _is_ingress_map m;
     _installed := _installed m; _status_message := _status_message m;
     _name := _name m; _enabled := _enabled m; _uni_port := _uni_port m;
     _evc_connection := v; _evc_name := _evc_name m;
     _men_priority := _men_priority m; _men_pri := _men_pri m;
     _c_tag := _c_tag m; _men_ctag_priority := _men_ctag_priority m;
     _men_ctag_pri := _men_ctag_pri m;
     _match_ce_vlan_id := _match_ce_vlan_id m;
     _match_untagged := _match_untagged m;
     _match_destination_mac_address := _match_destination_mac_address m;
     _match_l2cp := _match_l2cp m; _match_broadcast := _match_broadcast m;
     _match_multicast := _match_multicast m;
     _match_unicast := _match_unicast m; _match_igmp := _match_igmp m;
     _eth_type := _eth_type m; _ip_protocol := _ip_protocol m;
     _ipv4_dst := _ipv4_dst m; _udp_dst := _udp_dst m;
     _udp_src := _udp_src m; _valid := _valid m |}.

Definition set_evc_name (v : option string) (m : EVCMap) : EVCMap :=
  {| self_id := self_id m; _flow := _flow m; _evc := _evc m;
     _gem_ids := _gem_ids m; _is_ingress_map := _is_ingress_map m;
     _installed := _installed m; _status_message := _status_message m;
     _name := _name m; _enabled := _enabled m; _uni_port := _uni_port m;
     _evc_connection := _evc_connection m; _evc_name := v;
     _men_priority := _men_priority m; _men_pri := _men_pri m;
     _c_tag := _c_tag m; _men_ctag_priority := _men_ctag_priority m;
     _men_ctag_pri := _men_ctag_pri m;
     _match_ce_vlan_id := _match_ce_vlan_id m;
     _match_untagged := _match_untagged m;
     _match_destination_mac_address := _match_destination_mac_address m;
     _match_l2cp := _match_l2cp m; _match_broadcast := _match_broadcast m;
     _match_multicast := _match_multicast m;
     _match_unicast := _match_unicast m; _match_igmp := _match_igmp m;
     _eth_type := _eth_type m; _ip_protocol := _ip_protocol m;
     _ipv4_dst := _ipv4_dst m; _udp_dst := _udp_dst m;
     _udp_src := _udp_src m; _valid := _valid m |}.

Definition set_c_tag (v : option Z) (m : EVCMap) : EVCMap :=
  {| self_id := self_id m; _flow := _flow m; _evc := _evc m;
     _gem_ids := _gem_ids m; _is_ingress_map := _is_ingress_map m;
     _installed := _installed m; _status_message := _status_message m;
     _name := _name m; _enabled := _enabled m; _uni_port := _uni_port m;
     _evc_connection := _evc_connection m; _evc_name := _evc_name m;
     _men_priority := _men_priority m; _men_pri := _men_pri m; _c_tag := v;
     _men_ctag_priority := _men_ctag_priority m;
     _men_ctag_pri := _men_ctag_pri m;
     _match_ce_vlan_id := _match_ce_vlan_id m;
     _match_untagged := _match_untagged m;
     _match_destination_mac_address := _match_destination_mac_address m;
     _match_l2cp := _match_l2cp m; _match_broadcast := _match_broadcast m;
     _match_multicast := _match_multicast m;
     _match_unicast := _match_unicast m; _match_igmp := _match_igmp m;
     _eth_type := _eth_type m; _ip_protocol := _ip_protocol m;
     _ipv4_dst := _ipv4_dst m; _udp_dst := _udp_dst m;
     _udp_src := _udp_src m; _valid := _valid m |}.

Definition set_eth_type (v : option Z) (m : EVCMap) : EVCMap :=
  {| self_id := self_id m; _flow := _flow m; _evc := _evc m;
     _gem_ids := _gem_ids m; _is_ingress_map := _is_ingress_map m;
     _installed := _installed m; _status_message := _status_message m;
     _name := _name m; _enabled := _enabled m; _uni_port := _uni_port m;
     _evc_connection := _evc_connection m; _evc_name := _evc_name m;
     _men_priority := _men_priority m; _men_pri := _men_pri m;
     _c_tag := _c_tag m; _men_ctag_priority := _men_ctag_priority m;
     _men_ctag_pri := _men_ctag_pri m;
     _match_ce_vlan_id := _match_ce_vlan_id m;
     _match_untagged := _match_untagged m;
     _match_destination_mac_address := _match_destination_mac_address m;
     _match_l2cp := _match_l2cp m; _match_broadcast := _match_broadcast m;
     _match_multicast := _match_multicast m;
     _match_unicast := _match_unicast m; _match_igmp := _match_igmp m;
     _eth_type := v; _ip_protocol := _ip_protocol m;
     _ipv4_dst := _ipv4_dst m; _udp_dst := _udp_dst m;
     _udp_src := _udp_src m; _valid := _valid m |}.

Definition set_ip_protocol (v : option Z) (m : EVCMap) : EVCMap :=
  {| self_id := self_id m; _flow := _flow m; _evc := _evc m;
     _gem_ids := _gem_ids m; _is_ingress_map := _is_ingress_map m;
     _installed := _installed m; _status_message := _status_message m;
     _name := _name m; _enabled := _enabled m; _uni_port := _uni_port m;
     _evc_connection := _evc_connection m; _evc_name := _evc_name m;
     _men_priority := _men_priority m; _men_pri := _men_pri m;
     _c_tag := _c_tag m; _men_ctag_priority := _men_ctag_priority m;
     _men_ctag_pri := _men_ctag_pri m;
     _match_ce_vlan_id := _match_ce_vlan_id m;
     _match_untagged := _match_untagged m;
     _match_destination_mac_address := _match_destination_mac_address m;
     _match_l2cp := _match_l2cp m; _match_broadcast := _match_broadcast m;
     _match_multicast := _match_multicast m;
     _match_unicast := _match_unicast m; _match_igmp := _match_igmp m;
     _eth_type := _eth_type m; _ip_protocol := v; _ipv4_dst := _ipv4_dst m;
     _udp_dst := _udp_dst m; _udp_src := _udp_src m; _valid := _valid m |}.

Definition set_ipv4_dst (v : option Z) (m : EVCMap) : EVCMap :=
  {| self_id := self_id m; _flow := _flow m; _evc := _evc m;
     _gem_ids := _gem_ids m; _is_ingress_map := _is_ingress_map m;
     _installed := _installed m; _status_message := _status_message m;
     _name := _name m; _enabled := _enabled m; _uni_port := _uni_port m;
     _evc_connection := _evc_connection m; _evc_name := _evc_name m;
     _men_priority := _men_priority m; _men_pri := _men_pri m;
     _c_tag := _c_tag m; _men_ctag_priority := _men_ctag_priority m;
     _men_ctag_pri := _men_ctag_pri m;
     _match_ce_vlan_id := _match_ce_vlan_id m;
     _match_untagged := _match_untagged m;
     _match_destination_mac_address := _match_destination_mac_address m;
     _match_l2cp := _match_l2cp m; _match_broadcast := _match_broadcast m;
     _match_multicast := _match_multicast m;
     _match_unicast := _match_unicast m; _match_igmp := _match_igmp m;
     _eth_type := _eth_type m; _ip_protocol := _ip_protocol m;
     _ipv4_dst := v; _udp_dst := _udp_dst m; _udp_src := _udp_src m;
     _valid := _valid m |}.

Definition set_udp_dst (v : option Z) (m : EVCMap) : EVCMap :=
  {| self_id := self_id m; _flow := _flow m; _evc := _evc m;
     _gem_ids := _gem_ids m; _is_ingress_map := _is_ingress_map m;
     _installed := _installed m; _status_message := _status_message m;
     _name := _name m; _enabled := _enabled m; _uni_port := _uni_port m;
     _evc_connection := _evc_connection m; _evc_name := _evc_name m;
     _men_priority := _men_priority m; _men_pri := _men_pri m;
     _c_tag := _c_tag m; _men_ctag_priority := _men_ctag_priority m;
     _men_ctag_pri := _men_ctag_pri m;
     _match_ce_vlan_id := _match_ce_vlan_id m;
     _match_untagged := _match_untagged m;
     _match_destination_mac_address := _match_destination_mac_address m;
     _match_l2cp := _match_l2cp m; _match_broadcast := _match_broadcast m;
     _match_multicast := _match_multicast m;
     _match_unicast := _match_unicast m; _match_igmp := _match_igmp m;
     _eth_type := _eth_type m; _ip_protocol := _ip_protocol m;
     _ipv4_dst := _ipv4_dst m; _udp_dst := v; _udp_src := _udp_src m;
     _valid := _valid m |}.

Definition set_udp_src (v : option Z) (m : EVCMap) : EVCMap :=
  {| self_id := self_id m; _flow := _flow m; _evc := _evc m;
     _gem_ids := _gem_ids m; _is_ingress_map := _is_ingress_map m;
     _installed := _installed m; _status_message := _status_message m;
     _name := _name m; _enabled := _enabled m; _uni_port := _uni_port m;
     _evc_connection := _evc_connection m; _evc_name := _evc_name m;
     _men_priority := _men_priority m; _men_pri := _men_pri m;
     _c_tag := _c_tag m; _men_ctag_priority := _men_ctag_priority m;
     _men_ctag_pri := _men_ctag_pri m;
     _match_ce_vlan_id := _match_ce_vlan_id m;
     _match_untagged := _match_untagged m;
     _match_destination_mac_address := _match_destination_mac_address m;
     _match_l2cp := _match_l2cp m; _match_broadcast := _match_broadcast m;
     _match_multicast := _match_multicast m;
     _match_unicast := _match_unicast m; _match_igmp := _match_igmp m;
     _eth_type := _eth_type m; _ip_protocol := _ip_protocol m;
     _ipv4_dst := _ipv4_dst m; _udp_dst := _udp_dst m; _udp_src := v;
     _valid := _valid m |}.

Definition set_valid (v : bool) (m : EVCMap) : EVCMap :=
  {| self_id := self_id m; _flow := _flow m; _evc := _evc m;
     _gem_ids := _gem_ids m; _is_ingress_map := _is_ingress_map m;
     _installed := _installed m; _status_message := _status_message m;
     _name := _name m; _enabled := _enabled m; _uni_port := _uni_port m;
     _evc_connection := _evc_connection m; _evc_name := _evc_name m;
     _men_priority := _men_priority m; _men_pri := _men_pri m;
     _c_tag := _c_tag m; _men_ctag_priority := _men_ctag_priority m;
     _men_ctag_pri := _men_ctag_pri m;
     _match_ce_vlan_id := _match_ce_vlan_id m;
     _match_untagged := _match_untagged m;
     _match_destination_mac_address := _match_destination_mac_address m;
     _match_l2cp := _match_l2cp m; _match_broadcast := _match_broadcast m;
     _match_multicast := _match_multicast m;
     _match_unicast := _match_unicast m; _match_igmp := _match_igmp m;
     _eth_type := _eth_type m; _ip_protocol := _ip_protocol m;
     _ipv4_dst := _ipv4_dst m; _udp_dst := _udp_dst m;
     _udp_src := _udp_src m; _valid := v |}.

(** [self._needs_acl_support] *)
Definition is_not_None {A} (x : option A) : bool :=
  match x with
  | Some _ => true
  | None => false
  end.

Definition _needs_acl_support (m : EVCMap) : bool :=
  is_not_None (_eth_type m) || is_not_None (_ip_protocol m) ||
  is_not_None (_ipv4_dst m) || is_not_None (_udp_dst m) ||
  is_not_None (_udp_src m).

Definition _xml_header (operation : option string) : string :=
  "<evc-maps xmlns=" +:+ dq +:+ "http://www.adtran.com/ns/yang/adtran-evc-maps"
  +:+ dq +:+ "><evc-map"
  +:+ match operation with
      | None => EmptyString
      | Some op => " operation=" +:+ dq +:+ op +:+ dq
      end
  +:+ ">".

Definition _xml_trailer : string := "</evc-map></evc-maps>".

(** ** The state the methods run in *)

Record World : Type := {
  evcs : gmap nat EVC.t;      (* the circuits, by reference *)
  sent : list Request;        (* every request given to the transport *)
  logs : list string          (* the events logged *)
}.

Record St : Type := {
  self : EVCMap;
  world : World
}.

Definition set_evcs (v : gmap nat EVC.t) (w : World) : World :=
  {| evcs := v; sent := sent w; logs := logs w |}.

Definition add_sent (r : Request) (w : World) : World :=
  {| evcs := evcs w; sent := sent w ++ [r]; logs := logs w |}.

Definition add_log (event : string) (w : World) : World :=
  {| evcs := evcs w; sent := sent w; logs := logs w ++ [event] |}.

Definition on_world (f : World -> World) (s : St) : St :=
  {| self := self s; world := f (world s) |}.

Definition on_self (f : EVCMap -> EVCMap) (s : St) : St :=
  {| self := f (self s); world := world s |}.

(** [log.debug], [log.error], [log.exception] *)
Definition wlog (event : string) : M World unit := modify (add_log event).

Definition log (event : string) : M St unit := modify (on_world (add_log event)).

(** [self.x = v] and [self.x] *)
Definition upd (f : EVCMap -> EVCMap) : M St unit := modify (on_self f).

Definition attr {A} (f : EVCMap -> A) : M St A := gets (fun s => f (self s)).

(** An attribute access on a reference that may be [None]. *)
Definition not_None {S A} (x : option A) : M S A :=
  match x with
  | Some a => ret a
  | None => raise AttributeError
  end.

(** [self._evc.x]: the reference and the circuit it points to. *)
Definition the_evc : M St (nat * EVC.t) :=
  r <- (o <- attr _evc ;; not_None o) ;;
  E <- (es <- gets (fun s => evcs (world s)) ;; not_None (es !! r)) ;;
  ret (r, E).

(** [evc.x = v] on the circuit behind a reference. *)
Definition evc_upd (r : nat) (f : EVC.t -> EVC.t) : M St unit :=
  modify (on_world (fun w => set_evcs (alter f r (evcs w)) w)).

(** [yield client.edit_config(xml, default_operation, lock_timeout)]: the
    request is recorded, and the reply is returned or the failure raised. *)
Definition submit {S} (sent_of : S -> list Request) (record : Request -> S -> S)
    (client : NetconfClient) (xml : string) (default_operation : option string)
    (lock_timeout : Z) : M S RpcReply :=
  fun s =>
    let s' := record (EditConfig xml default_operation lock_timeout) s in
    match edit_config client (sent_of s) xml default_operation lock_timeout with
    | Reply r => (Ok r, s')
    | Failure e => (Raise e, s')
    end.

(** [yield self._flow.handler.netconf_client.edit_config(...)] *)
Definition flow_edit_config (xml : string) (default_operation : option string)
    (lock_timeout : Z) : M St RpcReply :=
  flow <- (o <- attr _flow ;; not_None o) ;;
  submit (fun s => sent (world s)) (fun r => on_world (add_sent r))
         (netconf_client (FlowEntry.handler flow)) xml default_operation lock_timeout.

(** [self.status = '' if results.ok else results.error] as the four
    operations write it. *)
Definition set_status_from (results : RpcReply) : M St unit :=
  if ok results then upd (set_status_message (Some EmptyString))
  else upd (set_status_message (error results)).

(** ** The decoder and the constructor *)

Definition when {S} (b : bool) (c : M S unit) : M S unit :=
  if b then c else ret tt.

(** [x == v] between an attribute that may be [None] and a number. *)
Definition opt_eqb (x : option Z) (v : Z) : bool :=
  match x with
  | Some a => Z.eqb a v
  | None => false
  end.

(** [self._evc.flow_entry.pop_vlan] *)
Definition evc_pop_vlan : M St Z :=
  rE <- the_evc ;;
  fe <- not_None (EVC.flow_entry (snd rE)) ;;
  ret (FlowEntry.pop_vlan fe).

(** [len(flow.push_vlan_id) == n and self._evc.flow_entry.pop_vlan == 1];
    the right operand is evaluated only when the left one holds. *)
Definition pushes_and_pops_one (flow : FlowEntry.t) (n : nat) : M St bool :=
  if Nat.eqb (length (FlowEntry.push_vlan_id flow)) n
  then (pop <- evc_pop_vlan ;; ret (Z.eqb pop 1))
  else ret false.

Definition _decode : M St bool :=
  flow <- (o <- attr _flow ;; not_None o) ;;
  upd (set_name (Some (EVC_MAP_NAME_FORMAT (FlowEntry.in_port flow)
                                           (FlowEntry.flow_id flow)))) ;;
  evc <- attr _evc ;;
  match evc with
  | None =>
      upd (set_status_message (Some "Can only create EVC-MAP if EVC supplied")) ;;
      ret false
  | Some _ =>
      upd (set_evc_connection EvcConnection.EVC) ;;
      rE <- the_evc ;;
      upd (set_evc_name (Some (EVC.name (snd rE)))) ;;
      is_pon <- lift (is_pon_port (FlowEntry.handler flow) (FlowEntry.in_port flow)) ;;
      is_uni <- lift (is_uni_port (FlowEntry.handler flow) (FlowEntry.in_port flow)) ;;
      if is_pon || is_uni then
        port <- lift (get_port_name (FlowEntry.handler flow) (FlowEntry.in_port flow)) ;;
        upd (set_uni_port port) ;;
        rE <- the_evc ;;
        evc_upd (fst rE) (EVC.set_ce_vlan_preservation false) ;;
        (* ACL logic *)
        upd (set_eth_type (FlowEntry.eth_type flow)) ;;
        eth <- attr _eth_type ;;
        when (opt_eqb eth FlowEntry.EtherType.IPv4)
          (upd (set_ip_protocol (FlowEntry.ip_protocol flow)) ;;
           upd (set_ipv4_dst (FlowEntry.ipv4_dst flow)) ;;
           proto <- attr _ip_protocol ;;
           when (opt_eqb proto FlowEntry.IpProtocol.UDP)
             (upd (set_udp_dst (FlowEntry.udp_dst flow)) ;;
              upd (set_udp_src (FlowEntry.udp_src flow)))) ;;
        ingress <- attr _is_ingress_map ;;
        when (ingress && is_pon)
          (pon_port <- lift (get_southbound_port (FlowEntry.handler flow)
                                                 (FlowEntry.in_port flow)) ;;
           match pon_port with
           | None => ret tt
           | Some pp =>
               acl <- attr _needs_acl_support ;;
               gems <- lift (gem_ids pp acl) ;;
               upd (set_gem_ids (Some (GemDict gems))) ;;
               acl <- attr _needs_acl_support ;;
               eth <- attr _eth_type ;;
               when (acl && negb (opt_eqb eth FlowEntry.EtherType.EAPOL))
                 (upd (set_gem_ids (Some GemSet)))
           end) ;;
        upd (set_c_tag (FlowEntry.inner_vid flow)) ;;
        single <- pushes_and_pops_one flow 1%nat ;;
        if single then
          rE <- the_evc ;;
          evc_upd (fst rE) (EVC.set_men_to_uni_tag_manipulation EVC.SYMMETRIC) ;;
          rE <- the_evc ;;
          evc_upd (fst rE) (EVC.set_switching_method EVC.SINGLE_TAGGED) ;;
          tpid <- match FlowEntry.push_vlan_tpid flow with
                  | [] => raise IndexError
                  | t :: _ => ret t
                  end ;;
          rE <- the_evc ;;
          evc_upd (fst rE) (EVC.set_stpid (Some tpid)) ;;
          ret true
        else
          double <- pushes_and_pops_one flow 2%nat ;;
          if double then
            rE <- the_evc ;;
            evc_upd (fst rE) (EVC.set_men_to_uni_tag_manipulation EVC.POP_OUT_TAG_ONLY) ;;
            rE <- the_evc ;;
            evc_upd (fst rE) (EVC.set_switching_method EVC.DOUBLE_TAGGED) ;;
            raise (NotImplementedError "TODO: Not supported/needed yet")
          else ret true
      else
        upd (set_status_message
               (Some "EVC-MAPS without UNI or PON ports are not supported")) ;;
        ret false
  end.

(** The attributes [__init__] assigns before it decodes. *)
Definition new_EVCMap (id : nat) (flow : option FlowEntry.t) (evc : option nat)
    (is_ingress_map : bool) : EVCMap :=
  {| self_id := id; _flow := flow; _evc := evc; _gem_ids := None;
     _is_ingress_map := is_ingress_map; _installed := false;
     _status_message := None; _name := None; _enabled := true;
     _uni_port := None;
     _evc_connection := EvcConnection.NO_EVC_CONNECTION; _evc_name := None;
     _men_priority := PriorityOption.INHERIT_PRIORITY; _men_pri := 0;
     _c_tag := None; _men_ctag_priority := PriorityOption.INHERIT_PRIORITY;
     _men_ctag_pri := 0; _match_ce_vlan_id := None; _match_untagged := true;
     _match_destination_mac_address := None; _match_l2cp := false;
     _match_broadcast := false; _match_multicast := false;
     _match_unicast := false; _match_igmp := false; _eth_type := None;
     _ip_protocol := None; _ipv4_dst := None; _udp_dst := None;
     _udp_src := None; _valid := false |}.

(** The body of [__init__] after the attribute assignments. *)
Definition init_body (evc : option nat) : M St unit :=
  try_except (v <- _decode ;; upd (set_valid v))
             (fun e => log "decode" ;; upd (set_valid false)) ;;
  valid <- attr _valid ;;
  if valid then
    r <- not_None evc ;;
    m <- gets self ;;
    evc_upd r (EVC.add_evc_map (_name m) (self_id m))
  else upd (set_evc None).

(** [EVCMap(flow, evc, is_ingress_map)]: [id] is the identity of the new
    object, [w] the world it is created in. *)
Definition EVCMap_init (id : nat) (flow : option FlowEntry.t) (evc : option nat)
    (is_ingress_map : bool) (w : World) : Res unit * St :=
  init_body evc {| self := new_EVCMap id flow evc is_ingress_map; world := w |}.

Definition create_ingress_map (id : nat) (flow : option FlowEntry.t)
    (evc : option nat) (w : World) : Res unit * St :=
  EVCMap_init id flow evc true w.

Definition create_egress_map (id : nat) (flow : option FlowEntry.t)
    (evc : option nat) (w : World) : Res unit * St :=
  EVCMap_init id flow evc false w.

(** ** Lifecycle operations *)

Definition bool_xml (b : bool) : string := if b then "true" else "false".

(** [<evc>name</evc>], or the rendering of the connection marker. *)
Definition connection_xml (m : EVCMap) : Res string :=
  match _evc_name m with
  | Some n => Ok ("<evc>" +:+ n +:+ "</evc>")
  | None => EvcConnection.xml (Some (_evc_connection m))
  end.

(** The document [install] builds. *)
Definition install_xml (m : EVCMap) : Res string :=
  let xml := _xml_header None in
  let xml := xml +:+ "<name>" +:+ fmt_opt id (_name m) +:+ "</name>" in
  let xml := xml +:+ "<enabled>" +:+ bool_xml (_enabled m) +:+ "</enabled>" in
  let xml := xml +:+ "<uni>" +:+ fmt_opt id (_uni_port m) +:+ "</uni>" in
  match connection_xml m with
  | Raise e => Raise e
  | Ok conn =>
      let xml := xml +:+ conn in
      let xml :=
        if _match_untagged m then xml +:+ "<match-untagged>True</match-untagged>"
        else match _c_tag m with
             | Some c => xml +:+ "<ctag>" +:+ fmt_Z c +:+ "</ctag>"
             | None => xml
             end in
      Ok (xml +:+ _xml_trailer)
  end.

(** The documents [remove], [enable] and [disable] build. *)
Definition remove_xml (m : EVCMap) : string :=
  _xml_header (Some "remove") +:+ "<name>" +:+ fmt_opt id (_name m) +:+ "</name>"
  +:+ _xml_trailer.

Definition enable_xml (m : EVCMap) : string :=
  (_xml_header None +:+ "<name>" +:+ fmt_opt id (_name m) +:+ "</name>")
  +:+ ("<enabled>true</enabled>" +:+ _xml_trailer).

Definition disable_xml (m : EVCMap) : string :=
  (_xml_header None +:+ "<name>" +:+ fmt_opt id (_name m) +:+ "</name>")
  +:+ ("<enabled>false</enabled>" +:+ _xml_trailer).

(** [for x in l: body x] *)
Fixpoint for_each {S A} (l : list A) (body : A -> M S unit) : M S unit :=
  match l with
  | [] => ret tt
  | x :: l' => body x ;; for_each l' body
  end.

Section Lifecycle.

(** [Onu.gem_id_to_gvid] (onu.py) is not part of the sources: the mapping
    from a channel id to its VLAN id is a parameter. *)
Variable gem_id_to_gvid : Z -> Z.

(** One [<evc-map>] entry of the fan-out document. *)
Definition pon_entry_xml (m : EVCMap) (onu_id gem_id : Z) : Res string :=
  let xml := "<evc-map>" in
  let xml := xml +:+ "<name>" +:+ fmt_opt id (_name m) +:+ "." +:+ fmt_Z onu_id
                 +:+ "." +:+ fmt_Z gem_id +:+ "</name>" in
  let xml := xml +:+ "<enabled>" +:+ bool_xml (_enabled m) +:+ "</enabled>" in
  let xml := xml +:+ "<uni>" +:+ fmt_opt id (_uni_port m) +:+ "</uni>" in
  match connection_xml m with
  | Raise e => Raise e
  | Ok conn =>
      let xml := xml +:+ conn in
      let xml := xml +:+ "<ce-vlan-id>" +:+ fmt_Z (gem_id_to_gvid gem_id)
                     +:+ "</ce-vlan-id>" in
      let xml := match _c_tag m with
                 | Some c => xml +:+ "<ctag>" +:+ fmt_Z c +:+ "</ctag>"
                 | None => xml
                 end in
      Ok (xml +:+ "</evc-map>")
  end.

(** The inner loop: one entry per GEM id, appended in order. *)
Fixpoint pon_entries_xml (m : EVCMap) (onu_id : Z) (gems : list Z)
    (xml : string) : Res string :=
  match gems with
  | [] => Ok xml
  | g :: gems' =>
      match pon_entry_xml m onu_id g with
      | Raise e => Raise e
      | Ok entry => pon_entries_xml m onu_id gems' (xml +:+ entry)
      end
  end.

(** The document of one ONU. *)
Definition pon_xml (m : EVCMap) (onu_id : Z) (gems : list Z) : Res string :=
  match pon_entries_xml m onu_id gems
          ("<evc-maps xmlns=" +:+ dq
           +:+ "http://www.adtran.com/ns/yang/adtran-evc-maps" +:+ dq +:+ ">") with
  | Raise e => Raise e
  | Ok xml => Ok (xml +:+ "</evc-maps>")
  end.

(** The body of the loop over the ONUs. *)
Definition pon_install_onu (unit_ : Z * list Z) : M St unit :=
  m <- gets self ;;
  xml <- lift (pon_xml m (fst unit_) (snd unit_)) ;;
  log "creating" ;;
  try_except
    (results <- flow_edit_config xml None 30 ;;
     upd (set_installed (ok results)) ;;
     set_status_from results)
    (fun e =>
       log "install" ;;
       upd (set_installed false) ;;
       raise e).

Definition pon_install : M St bool :=
  valid <- attr _valid ;;
  installed <- attr _installed ;;
  when (valid && negb installed)
    (upd (set_installed true) ;;
     gems <- attr _gem_ids ;;
     match gems with
     | Some (GemDict d) => for_each d pon_install_onu
     | Some GemSet => raise AttributeError      (* a set has no iteritems *)
     | None => raise AttributeError
     end) ;;
  installed <- attr _installed ;;
  valid <- attr _valid ;;
  ret (installed && valid).

(** In [install] the fan-out is started without a [yield]: its Deferred is
    dropped, so a failure of [pon_install] is not raised by [install]. *)
Definition install : M St bool :=
  gems <- attr _gem_ids ;;
  match gems with
  | Some _ => try_except (pon_install ;; ret tt) (fun _ => ret tt)
  | None =>
      valid <- attr _valid ;;
      installed <- attr _installed ;;
      when (valid && negb installed)
        (m <- gets self ;;
         xml <- lift (install_xml m) ;;
         log "creating" ;;
         acl <- attr _needs_acl_support ;;
         if acl then upd (set_installed true)
         else
           try_except
             (results <- flow_edit_config xml None 30 ;;
              upd (set_installed (ok results)) ;;
              set_status_from results)
             (fun e => log "install" ;; raise e))
  end ;;
  installed <- attr _installed ;;
  valid <- attr _valid ;;
  ret (installed && valid).

Definition remove : M St bool :=
  installed <- attr _installed ;;
  when installed
    (m <- gets self ;;
     let xml := remove_xml m in
     log "removing" ;;
     acl <- attr _needs_acl_support ;;
     if acl then upd (set_installed false)
     else
       try_except
         (results <- flow_edit_config xml (Some "remove") 30 ;;
          upd (set_installed (negb (ok results))) ;;
          set_status_from results)
         (fun e => log "removing" ;; raise e)) ;;
  installed <- attr _installed ;;
  ret installed.

Definition enable : M St bool :=
  installed <- attr _installed ;;
  enabled <- attr _enabled ;;
  when (installed && negb enabled)
    (m <- gets self ;;
     let xml := enable_xml m in
     log "enabling" ;;
     acl <- attr _needs_acl_support ;;
     if acl then upd (set_enabled true)
     else
       try_except
         (results <- flow_edit_config xml None 30 ;;
          upd (set_enabled (ok results)) ;;
          set_status_from results)
         (fun e => log "enabling" ;; raise e)) ;;
  installed <- attr _installed ;;
  enabled <- attr _enabled ;;
  ret (installed && enabled).

Definition disable : M St bool :=
  installed <- attr _installed ;;
  enabled <- attr _enabled ;;
  when (installed && enabled)
    (m <- gets self ;;
     let xml := disable_xml m in
     log "disabling" ;;
     acl <- attr _needs_acl_support ;;
     if acl then upd (set_enabled false)
     else
       try_except
         (results <- flow_edit_config xml None 30 ;;
          upd (set_enabled (negb (ok results))) ;;
          set_status_from results)
         (fun e => log "disabling" ;; raise e)) ;;
  installed <- attr _installed ;;
  enabled <- attr _enabled ;;
  ret (installed && negb enabled).

(** [delete]: the [finally] clause detaches from the flow and the circuit. *)
Definition delete : M St bool :=
  try_finally
    (try_except
       (upd (set_valid false) ;;
        remove)
       (fun _ => ret false))
    (upd (set_flow None) ;;
     evc <- attr _evc ;;
     upd (set_evc None) ;;
     match evc with
     | Some r =>
         m <- gets self ;;
         evc_upd r (EVC.remove_evc_map (_name m))
     | None => ret tt
     end).

(** The lifecycle operations a caller may invoke on a descriptor, and the
    state one of them leaves, whether it returns or raises. *)
Inductive Op : Type :=
| OpInstall | OpPonInstall | OpRemove | OpEnable | OpDisable | OpDelete.

Definition run_op (o : Op) : M St bool :=
  match o with
  | OpInstall => install
  | OpPonInstall => pon_install
  | OpRemove => remove
  | OpEnable => enable
  | OpDisable => disable
  | OpDelete => delete
  end.

Definition exec_ops (ops : list Op) (s : St) : St :=
  fold_left (fun s o => snd (run_op o s)) ops s.

End Lifecycle.

(** ** The bulk reclaimer *)

(** [key in v] *)
Definition py_contains (key : string) (v : XVal) : Res bool :=
  match v with
  | XDict d => Ok (existsb (fun kv => String.eqb (fst kv) key) d)
  | XList l => Ok (existsb (fun x => match x with
                                     | XStr s => String.eqb s key
                                     | _ => false
                                     end) l)
  | XStr s => Ok (is_not_None (String.index 0 key s))
  | XNone => Raise TypeError
  end.

(** [v[key]] *)
Definition py_getitem (v : XVal) (key : string) : Res XVal :=
  match v with
  | XDict d => match find (fun kv => String.eqb (fst kv) key) d with
               | Some kv => Ok (snd kv)
               | None => Raise KeyError
               end
  | _ => Raise TypeError
  end.

(** [v.items()] *)
Definition py_items (v : XVal) : Res (list (string * XVal)) :=
  match v with
  | XDict d => Ok d
  | _ => Raise AttributeError
  end.

Definition nl : string := String (Ascii.ascii_of_nat 10) EmptyString.

Definition get_xml : string :=
  nl +:+ "        <filter>" +:+ nl
  +:+ "          <evc-maps xmlns=" +:+ dq
  +:+ "http://www.adtran.com/ns/yang/adtran-evc-maps" +:+ dq +:+ ">" +:+ nl
  +:+ "            <evc-map>" +:+ nl
  +:+ "              <name/>" +:+ nl
  +:+ "            </evc-map>" +:+ nl
  +:+ "          </evc-maps>" +:+ nl
  +:+ "        </filter>" +:+ nl
  +:+ "        ".

(** [d.addCallbacks(callback, errback)]: a Deferred is a computation that
    ends in a result or in a failure; the next stage runs the callback on the
    one and the errback on the other. *)
Definition addCallbacks {S A B} (d : M S A) (callback : A -> M S B)
    (errback : exn -> M S B) : M S B :=
  fun s => match d s with
           | (Ok a, s') => callback a s'
           | (Raise e, s') => errback e s'
           end.

Section RemoveAll.

(** The regular-expression library: [re.compile(pattern)] gives the
    matcher [p.match], or raises. *)
Variable re_compile : string -> Res (string -> bool).

(** The interpreter's iteration over a set: [for name in names] visits the
    elements in an order of its own choosing. *)
Variable set_iter : gset (option string) -> list (option string).

Variable client : NetconfClient.

Definition request_failed (operation : string) (results : exn) : M World unit :=
  wlog (operation +:+ "-failed").

Definition delete_complete (results : unit) : M World unit :=
  wlog "delete-complete".

(** The set comprehension of the list branch: the set of the names of the
    entries that have one and whose name the pattern matches.  The names are
    strings here, since [p.match] raises on anything else. *)
Fixpoint matching_names (p : string -> bool) (l : list XVal)
    : Res (gset (option string)) :=
  match l with
  | [] => Ok ∅
  | entry :: l' =>
      match py_contains "name" entry with
      | Raise e => Raise e
      | Ok has_name =>
          match (if has_name
                 then match py_getitem entry "name" with
                      | Raise e => Raise e
                      | Ok (XStr s) => Ok (if p s then {[ Some s ]} else ∅)
                      | Ok _ => Raise TypeError
                      end
                 else Ok ∅) with
          | Raise e => Raise e
          | Ok here =>
              match matching_names p l' with
              | Raise e => Raise e
              | Ok rest => Ok (here ∪ rest)
              end
          end
      end
  end.

(** The loop of the other branch: the set that holds the value of the
    first item whose key is ['name'], added as it is; a dictionary or a list
    cannot be hashed. *)
Fixpoint first_name (items : list (string * XVal)) : Res (gset (option string)) :=
  match items with
  | [] => Ok ∅
  | (k, v) :: items' =>
      if String.eqb k "name"
      then match v with
           | XStr s => Ok {[ Some s ]}
           | XNone => Ok {[ None ]}
           | _ => Raise TypeError
           end
      else first_name items'
  end.

(** The delete document for the names in the order they are visited: the
    trailer is appended inside the loop. *)
Definition del_xml_of (names : list (option string)) : string :=
  fold_left (fun del_xml name_ =>
               (del_xml +:+ "<name>" +:+ fmt_opt id name_ +:+ "</name>")
               +:+ _xml_trailer)
            names (_xml_header (Some "delete")).

(** [names] is a Python set; the document is built in the order the
    interpreter iterates it. *)
Definition do_delete (rpc_reply : RpcReply) (regexpr : string) : M World unit :=
  wlog "query-complete" ;;
  if ok rpc_reply then
    result_dict <- lift (data_xml rpc_reply) ;;
    data <- lift (py_getitem result_dict "data") ;;
    has_maps <- lift (py_contains "evc-maps" data) ;;
    entries <- (if has_maps then lift (py_getitem data "evc-maps")
                else ret (XDict [])) ;;
    has_map <- lift (py_contains "evc-map" entries) ;;
    if has_map then
      p <- lift (re_compile regexpr) ;;
      evc_map <- lift (py_getitem entries "evc-map") ;;
      names <- match evc_map with
               | XList l => lift (matching_names p l)
               | other => items <- lift (py_items other) ;; lift (first_name items)
               end ;;
      if (0 <? size names)%nat then
        let del_xml := del_xml_of (set_iter names) in
        wlog "removing" ;;
        _ <- submit sent add_sent client del_xml None 30 ;;
        ret tt
      else ret tt
    else ret tt
  else ret tt.

(** [client.get(get_xml)] is called outside any handler: when the call
    itself raises, there is no Deferred and the caller of [remove_all] gets
    the exception.  Otherwise the two [addCallbacks] stages are chained on
    the Deferred it returns. *)
Definition remove_all (regex_ : string) : M World unit :=
  wlog "query" ;;
  out <- (fun w => (get client (sent w) get_xml, add_sent (Get get_xml) w)) ;;
  let d : M World RpcReply :=
    match out with
    | Reply r => ret r
    | Failure e => raise e
    end in
  let d := addCallbacks d (fun r => do_delete r regex_) (request_failed "get") in
  addCallbacks d delete_complete (request_failed "edit-config").

End RemoveAll.

(** ** Concrete devices, flows and circuits *)

Definition reply_ok : RpcReply :=
  {| ok := true; error := None; data_xml := Ok XNone |}.

Definition reply_failed : RpcReply :=
  {| ok := false; error := Some "rpc-error"; data_xml := Ok XNone |}.

(** A device that answers the n-th request it receives with the n-th
    outcome of a script, and with success after the script ends. *)
Definition scripted_client (script : list Outcome) : NetconfClient :=
  {| get := fun history _ => Ok (nth (length history) script (Reply reply_ok));
     edit_config := fun history _ _ _ =>
                      nth (length history) script (Reply reply_ok) |}.

(** A handler on which port 1029 is a PON port with two ONUs and port 7 is
    a UNI port. *)
Definition ex_pon_port : PonPort :=
  {| gem_ids := fun _ => Ok [(1, [2001; 2002]); (2, [2101])] |}.

Definition ex_handler (script : list Outcome) : Handler :=
  {| is_pon_port := fun p => Ok (Z.eqb p 1029);
     is_uni_port := fun p => Ok (Z.eqb p 7);
     get_port_name := fun p => Ok (Some ("port-" +:+ fmt_Z p));
     get_southbound_port := fun p => Ok (if Z.eqb p 1029 then Some ex_pon_port else None);
     netconf_client := scripted_client script |}.

Definition ex_flow (script : list Outcome) (port : Z) (eth : option Z)
    (pushed : list Z) : FlowEntry.t :=
  {| FlowEntry.in_port := port; FlowEntry.flow_id := 55;
     FlowEntry.handler := ex_handler script;
     FlowEntry.eth_type := eth; FlowEntry.ip_protocol := Some 17;
     FlowEntry.ipv4_dst := None; FlowEntry.udp_dst := Some 67;
     FlowEntry.udp_src := None; FlowEntry.inner_vid := Some 100;
     FlowEntry.push_vlan_id := pushed; FlowEntry.push_vlan_tpid := [0x8100];
     FlowEntry.pop_vlan := 0 |}.

Definition ex_evc_flow : FlowEntry.t :=
  {| FlowEntry.in_port := 1; FlowEntry.flow_id := 7;
     FlowEntry.handler := ex_handler [];
     FlowEntry.eth_type := None; FlowEntry.ip_protocol := None;
     FlowEntry.ipv4_dst := None; FlowEntry.udp_dst := None;
     FlowEntry.udp_src := None; FlowEntry.inner_vid := None;
     FlowEntry.push_vlan_id := []; FlowEntry.push_vlan_tpid := [];
     FlowEntry.pop_vlan := 1 |}.

Definition ex_evc : EVC.t :=
  {| EVC.name := "VOLTHA-EVC-1"; EVC.flow_entry := Some ex_evc_flow;
     EVC.ce_vlan_preservation := true;
     EVC.men_to_uni_tag_manipulation := EVC.SYMMETRIC;
     EVC.switching_method := EVC.SINGLE_TAGGED; EVC.stpid := None;
     EVC.evc_maps := ∅ |}.

(** A world with one circuit, at reference 1. *)
Definition ex_world : World :=
  {| evcs := {[ 1%nat := ex_evc ]}; sent := []; logs := [] |}.

(** A descriptor that needs ACL support and has no channel table: an IPv4
    flow on the UNI port 7, bound to the circuit at reference 1. *)
Definition ex_acl_state : St :=
  snd (EVCMap_init 5 (Some (ex_flow [] 7 (Some 0x0800) [10])) (Some 1%nat) true ex_world).

(** The channel-table lookup of the decoder gives an answer: neither the
    port lookup nor the port's [gem_ids] raises. *)
Definition channel_table_answers (f : FlowEntry.t) : Prop :=
  match get_southbound_port (FlowEntry.handler f) (FlowEntry.in_port f) with
  | Raise _ => False
  | Ok None => True
  | Ok (Some pp) => forall acl, exists g, gem_ids pp acl = Ok g
  end.

(** A flow with two pushed tags on the UNI port 7. *)
Definition ex_double_flow : FlowEntry.t := ex_flow [] 7 (Some 0x0800) [10; 20].

(** A handler that knows port 1029 as a PON port but cannot name it, and a
    flow on that port. *)
Definition ex_unnamed_handler : Handler :=
  {| is_pon_port := fun p => Ok (Z.eqb p 1029);
     is_uni_port := fun p => Ok (Z.eqb p 7);
     get_port_name := fun _ => Raise KeyError;
     get_southbound_port := fun p => Ok (if Z.eqb p 1029 then Some ex_pon_port else None);
     netconf_client := scripted_client [] |}.

Definition ex_unnamed_flow : FlowEntry.t :=
  {| FlowEntry.in_port := 1029; FlowEntry.flow_id := 55;
     FlowEntry.handler := ex_unnamed_handler;
     FlowEntry.eth_type := None; FlowEntry.ip_protocol := None;
     FlowEntry.ipv4_dst := None; FlowEntry.udp_dst := None;
     FlowEntry.udp_src := None; FlowEntry.inner_vid := Some 100;
     FlowEntry.push_vlan_id := [10]; FlowEntry.push_vlan_tpid := [0x8100];
     FlowEntry.pop_vlan := 0 |}.

(** A PON port without ONUs, a flow on it and the descriptor made from
    it. *)
Definition ex_empty_pon_port : PonPort := {| gem_ids := fun _ => Ok [] |}.

Definition ex_empty_handler : Handler :=
  {| is_pon_port := fun p => Ok (Z.eqb p 1029);
     is_uni_port := fun p => Ok (Z.eqb p 7);
     get_port_name := fun p => Ok (Some ("port-" +:+ fmt_Z p));
     get_southbound_port :=
       fun p => Ok (if Z.eqb p 1029 then Some ex_empty_pon_port else None);
     netconf_client := scripted_client [] |}.

Definition ex_empty_table_flow : FlowEntry.t :=
  {| FlowEntry.in_port := 1029; FlowEntry.flow_id := 55;
     FlowEntry.handler := ex_empty_handler;
     FlowEntry.eth_type := None; FlowEntry.ip_protocol := None;
     FlowEntry.ipv4_dst := None; FlowEntry.udp_dst := None;
     FlowEntry.udp_src := None; FlowEntry.inner_vid := Some 100;
     FlowEntry.push_vlan_id := [10]; FlowEntry.push_vlan_tpid := [0x8100];
     FlowEntry.pop_vlan := 0 |}.

Definition ex_empty_table_state : St :=
  snd (EVCMap_init 5 (Some ex_empty_table_flow) (Some 1%nat) true ex_world).

(** ** Notions used in the statements *)

(** What no lifecycle operation but [delete] changes: the identity, the
    decoded fields and the circuits. *)
Definition fixed_part (s : St) :=
  (self_id (self s), _name (self s), _evc_name (self s), _evc_connection (self s),
   _valid (self s), _evc (self s), _flow (self s), _gem_ids (self s),
   (_eth_type (self s), _ip_protocol (self s), _ipv4_dst (self s),
    _udp_dst (self s), _udp_src (self s)),
   evcs (world s)).

(** The circuit at reference [r] holds the descriptor [m] in its
    collection, under the descriptor's name. *)
Definition registered (w : World) (r : nat) (m : EVCMap) : Prop :=
  exists E, evcs w !! r = Some E /\ EVC.evc_maps E !! _name m = Some (self_id m).

(** A descriptor is in the collection of a circuit exactly when it is valid
    and that circuit is the one it refers to. *)
Definition registration_inv (s : St) : Prop :=
  forall r, registered (world s) r (self s) <->
            (_valid (self s) = true /\ _evc (self s) = Some r).

(** The identity of a new object occurs in no collection yet. *)
Definition fresh_id (w : World) (id : nat) : Prop :=
  forall r E n, evcs w !! r = Some E -> EVC.evc_maps E !! n <> Some id.

(** The collection of the circuit at a reference, if there is one. *)
Definition maps_of (es : gmap nat EVC.t) (r : nat) : option (gmap (option string) nat) :=
  EVC.evc_maps <$> es !! r.

(** A valid descriptor carries the name of its circuit. *)
Definition names_circuit (s : St) : Prop :=
  _valid (self s) = true -> _evc_name (self s) <> None.

(** A valid descriptor refers to a circuit. *)
Definition refers_to_circuit (s : St) : Prop :=
  _valid (self s) = true -> exists r, _evc (self s) = Some r.

(** One entry of a fan-out document and the document of one ONU, as
    strings: the header, one entry for each GEM id of the ONU in order, and
    the trailer.  [conn] is the rendering of the circuit connection. *)
Definition pon_entry_doc (gvid : Z -> Z) (m : EVCMap) (conn : string)
    (onu_id gem_id : Z) : string :=
  let xml := "<evc-map>" in
  let xml := xml +:+ "<name>" +:+ fmt_opt id (_name m) +:+ "." +:+ fmt_Z onu_id
                 +:+ "." +:+ fmt_Z gem_id +:+ "</name>" in
  let xml := xml +:+ "<enabled>" +:+ bool_xml (_enabled m) +:+ "</enabled>" in
  let xml := xml +:+ "<uni>" +:+ fmt_opt id (_uni_port m) +:+ "</uni>" in
  let xml := xml +:+ conn in
  let xml := xml +:+ "<ce-vlan-id>" +:+ fmt_Z (gvid gem_id) +:+ "</ce-vlan-id>" in
  let xml := match _c_tag m with
             | Some c => xml +:+ "<ctag>" +:+ fmt_Z c +:+ "</ctag>"
             | None => xml
             end in
  xml +:+ "</evc-map>".

Definition pon_unit_doc (gvid : Z -> Z) (m : EVCMap) (conn : string)
    (unit_ : Z * list Z) : string :=
  fold_left (fun xml g => xml +:+ pon_entry_doc gvid m conn (fst unit_) g)
            (snd unit_)
            ("<evc-maps xmlns=" +:+ dq
             +:+ "http://www.adtran.com/ns/yang/adtran-evc-maps" +:+ dq +:+ ">")
  +:+ "</evc-maps>".

(** The outcomes a client gives to a sequence of documents submitted one
    after the other, starting from a history. *)
Fixpoint outcomes (c : NetconfClient) (history : list Request) (docs : list string)
    : list Outcome :=
  match docs with
  | [] => []
  | doc :: docs' =>
      edit_config c history doc None 30
      :: outcomes c (history ++ [EditConfig doc None 30]) docs'
  end.

Definition edit_request (doc : string) : Request := EditConfig doc None 30.

(** A descriptor with a channel table: a flow on the PON port 1029 bound to
    the circuit at reference 1, on a device that follows a script. *)
Definition ex_pon_state (script : list Outcome) : St :=
  snd (EVCMap_init 5 (Some (ex_flow script 1029 None [10])) (Some 1%nat) true ex_world).

(** A regular-expression library that knows the default pattern:
    ['VOLTHA-*'] matches, from the start of the name, ["VOLTHA"] followed by
    any number of dashes. *)
Definition ex_re_compile (pattern : string) : Res (string -> bool) :=
  if String.eqb pattern "VOLTHA-*" then Ok (String.prefix "VOLTHA")
  else Raise (OtherError "unknown pattern").

(** An interpreter that iterates a set in the order of [elements]. *)
Definition ex_set_iter : gset (option string) -> list (option string) := elements.

(** The answer to the query, as parsed, for a list of entries and for a
    single entry. *)
Definition query_reply (evc_map : XVal) : RpcReply :=
  {| ok := true; error := None;
     data_xml := Ok (XDict [("data", XDict [("evc-maps",
                                             XDict [("evc-map", evc_map)])])]) |}.

Definition entry_named (n : string) : XVal := XDict [("name", XStr n)].

(** A device that answers every query with one reply and accepts every
    edit. *)
Definition query_client (r : RpcReply) : NetconfClient :=
  {| get := fun _ _ => Ok (Reply r);
     edit_config := fun _ _ _ _ => Reply reply_ok |}.

Definition empty_world : World := {| evcs := ∅; sent := []; logs := [] |}.

(** A descriptor that needs no ACL support: a flow without ether-type on
    the UNI port 7, after some operations on a scripted device. *)
Definition ex_plain_state (ops : list Op) (script : list Outcome) : St :=
  exec_ops (fun g => g) ops
    (snd (EVCMap_init 5 (Some (ex_flow script 7 None [10])) (Some 1%nat) true ex_world)).

(** ** Further notions used in the statements *)

(** A string of decimal digits. *)
Definition is_digit (c : Ascii.ascii) : bool :=
  (48 <=? Ascii.nat_of_ascii c)%nat && (Ascii.nat_of_ascii c <=? 57)%nat.

Fixpoint all_digits (s : string) : bool :=
  match s with
  | EmptyString => true
  | String c s' => is_digit c && all_digits s'
  end.

(** The attributes of a descriptor that the constructor settles: identity,
    name, direction, port, connection, tags, channel table, ACL fields and
    the options that are never activated. *)
Definition decoded_part (m : EVCMap) :=
  (self_id m, _name m, _is_ingress_map m, _uni_port m, _evc_connection m,
   _evc_name m, _c_tag m, _match_untagged m, _gem_ids m,
   (_eth_type m, _ip_protocol m, _ipv4_dst m, _udp_dst m, _udp_src m),
   (_men_priority m, _men_pri m, _men_ctag_priority m, _men_ctag_pri m,
    _match_ce_vlan_id m, _match_destination_mac_address m),
   (_match_l2cp m, _match_broadcast m, _match_multicast m, _match_unicast m,
    _match_igmp m)).

(** A descriptor without a channel dictionary: no channel table at all, or
    the empty set. *)
Definition no_channel_dict (m : EVCMap) : Prop :=
  match _gem_ids m with
  | Some (GemDict _) => False
  | _ => True
  end.

(** The requests of the lifecycle operations: an edit with a lock timeout
    of 30 and either no default operation or ["remove"]. *)
Definition lifecycle_request (r : Request) : bool :=
  match r with
  | Get _ => false
  | EditConfig _ default_operation lock_timeout =>
      Z.eqb lock_timeout 30 &&
      match default_operation with
      | None => true
      | Some o => String.eqb o "remove"
      end
  end.

(** The history [after] is [before] followed by lifecycle requests. *)
Definition extends_with_edits (before after : list Request) : Prop :=
  exists tail,
    after = (before ++ tail)%list /\ forallb lifecycle_request tail = true.

(** A descriptor whose channel table is the empty set: an IPv4 flow on
    the PON port 1029. *)
Definition ex_set_state : St :=
  snd (EVCMap_init 5 (Some (ex_flow [] 1029 (Some 0x0800) [10])) (Some 1%nat) true
         ex_world).

(** * Properties *)

(** ** Reasoning about the monad *)

Ltac run_monad :=
  cbv [bind ret raise lift gets modify attr upd log wlog when try_except
       try_finally not_None the_evc evc_upd evc_pop_vlan pushes_and_pops_one
       on_self on_world set_status_from flow_edit_config submit addCallbacks].

#[local] Arguments alter : simpl never.
#[local] Arguments lookup : simpl never.
#[local] Arguments insert : simpl never.
#[local] Arguments delete : simpl never.
#[local] Arguments enable_xml : simpl never.
#[local] Arguments disable_xml : simpl never.
#[local] Arguments remove_xml : simpl never.

(** Case analysis on the innermost scrutinee of the goal. *)
Ltac split_match :=
  match goal with
  | |- context [match ?x with _ => _ end] =>
      lazymatch x with
      | context [match _ with _ => _ end] => fail
      | _ => destruct x eqn:?; simpl in *
      end
  end.

(** Lookups in the circuit store met during the execution are turned into
    equations on the circuit found. *)
Ltac norm_lookup :=
  repeat match goal with
    | H : context [alter _ ?r _ !! ?r] |- _ => rewrite lookup_alter_eq in H
    | H' : ?x = _, H : context [?x] |- _ =>
        lazymatch x with
        | Some _ => fail
        | None => fail
        | Ok _ => fail
        | Raise _ => fail
        | true => fail
        | false => fail
        | _ => tryif is_var x then fail else (rewrite H' in H; simpl in H)
        end
    | H : Some _ = Some ?t |- _ => is_var t; injection H as <-
    | H : Some _ = None |- _ => discriminate H
    | H : None = Some _ |- _ => discriminate H
    | H : true = false |- _ => discriminate H
    | H : false = true |- _ => discriminate H
    end.

(** A goal about the circuit at a reference whose initial state is known. *)
Ltac found_circuit HE :=
  rewrite ?lookup_alter_eq, ?HE; simpl;
  try (eexists; split; [reflexivity | repeat split]).

Ltac use_known :=
  match goal with
  | H : ?x = _ |- context [match ?x with _ => _ end] => rewrite H; simpl
  end.

Ltac exec := repeat (first [use_known | split_match]; norm_lookup).

Lemma opt_eqb_true x v : opt_eqb x v = true -> x = Some v.
Proof.
  destruct x as [a|]; simpl; [|discriminate].
  intros H. apply Z.eqb_eq in H. congruence.
Qed.

Lemma is_not_None_true {A} (x : option A) : is_not_None x = true <-> x <> None.
Proof. destruct x; simpl; split; intros; congruence. Qed.

(** ** The connection marker *)

(** C8: in [EvcConnection.xml] the branch that returns ['discard/'] is taken
    for no input; [NO_EVC_CONNECTION], also as the default of a [None]
    argument, raises [ValueError] instead of rendering its tag; and
    [<no-evc-connection/>] is returned exactly for [DISCARD]. *)
Theorem EvcConnection_xml_cases :
  (forall v, EvcConnection.xml v <> Ok "discard/") /\
  EvcConnection.xml None = Raise (ValueError "Invalid EvcConnection enumeration") /\
  EvcConnection.xml (Some EvcConnection.NO_EVC_CONNECTION)
    = Raise (ValueError "Invalid EvcConnection enumeration") /\
  (forall v, EvcConnection.xml v = Ok "<no-evc-connection/>"
             <-> v = Some EvcConnection.DISCARD).
Proof.
  repeat split.
  - intros [[]|]; discriminate.
  - destruct v as [[]|]; simpl; intros H; try discriminate; reflexivity.
  - intros ->. reflexivity.
Qed.

(** ** The decoder *)

(** C7: after a successful decode, [_needs_acl_support] holds exactly when
    one of the five ACL fields is set; the IP protocol and the destination
    address are set only for an IPv4 ether-type, and the UDP ports only
    when the IP protocol is UDP as well. *)
Theorem decode_acl_fields id flow evc ing w res s :
  EVCMap_init id flow evc ing w = (res, s) ->
  _valid (self s) = true ->
  (_needs_acl_support (self s) = true <->
     (_eth_type (self s) <> None \/ _ip_protocol (self s) <> None \/
      _ipv4_dst (self s) <> None \/ _udp_dst (self s) <> None \/
      _udp_src (self s) <> None)) /\
  (_ip_protocol (self s) <> None \/ _ipv4_dst (self s) <> None ->
     _eth_type (self s) = Some FlowEntry.EtherType.IPv4) /\
  (_udp_dst (self s) <> None \/ _udp_src (self s) <> None ->
     _eth_type (self s) = Some FlowEntry.EtherType.IPv4 /\
     _ip_protocol (self s) = Some FlowEntry.IpProtocol.UDP).
Proof.
  intros Hinit Hvalid. split.
  - unfold _needs_acl_support. rewrite !orb_true_iff, !is_not_None_true. tauto.
  - revert Hvalid. replace s with (snd (EVCMap_init id flow evc ing w))
      by (rewrite Hinit; reflexivity).
    clear Hinit. unfold EVCMap_init, init_body, _decode. run_monad. simpl.
    exec; intros; try discriminate;
      repeat match goal with
             | H : opt_eqb _ _ = true |- _ => apply opt_eqb_true in H
             end;
      subst; intuition congruence.
Qed.

Lemma decode_acl_fields_witness :
  _valid (self ex_acl_state) = true /\
  _needs_acl_support (self ex_acl_state) = true /\
  _eth_type (self ex_acl_state) = Some FlowEntry.EtherType.IPv4 /\
  _ip_protocol (self ex_acl_state) = Some FlowEntry.IpProtocol.UDP.
Proof.
  destruct (decode_acl_fields 5 (Some (ex_flow [] 7 (Some 0x0800) [10]))
              (Some 1%nat) true ex_world (Ok tt) ex_acl_state)
    as (Hacl & _ & Hudp); [vm_compute; reflexivity | vm_compute; reflexivity |].
  split; [vm_compute; reflexivity|]. split.
  - apply Hacl. left. vm_compute. discriminate.
  - apply Hudp. left. vm_compute. discriminate.
Defined.

(** The constructor returns normally on every input. *)
Lemma EVCMap_init_returns id flow evc ing w :
  fst (EVCMap_init id flow evc ing w) = Ok tt.
Proof.
  unfold EVCMap_init, init_body, _decode. run_monad. simpl.
  exec; reflexivity.
Qed.

Lemma guarded_decode_raise (d : M St bool) (evc : option nat) s0 e :
  fst (d s0) = Raise e ->
  _valid (self (snd (
    (try_except (v <- d ;; upd (set_valid v))
                (fun e => log "decode" ;; upd (set_valid false)) ;;
     valid <- attr _valid ;;
     if valid then
       r <- not_None evc ;;
       m <- gets self ;;
       evc_upd r (EVC.add_evc_map (_name m) (self_id m))
     else upd (set_evc None)) s0))) = false.
Proof.
  run_monad. destruct (d s0) as [[v|e'] s1]; simpl; intros H;
    [discriminate H | reflexivity].
Qed.

Lemma decode_raise_invalid evc s0 e :
  fst (_decode s0) = Raise e ->
  _valid (self (snd (init_body evc s0))) = false.
Proof. apply guarded_decode_raise. Qed.

Lemma two_pushed_one_pop_invalid id f r ing w E fe :
  evcs w !! r = Some E ->
  EVC.flow_entry E = Some fe ->
  FlowEntry.pop_vlan fe = 1 ->
  length (FlowEntry.push_vlan_id f) = 2%nat ->
  _valid (self (snd (EVCMap_init id (Some f) (Some r) ing w))) = false.
Proof.
  intros HE Hfe Hpop Hlen.
  unfold EVCMap_init, init_body, _decode. run_monad. simpl.
  rewrite HE, Hlen. simpl.
  exec. all: try reflexivity.
Qed.

(** C5: a flow with two pushed tags on a circuit whose flow entry pops one
    tag gives an invalid descriptor; and on every input the constructor
    returns normally, an exception of the decoder ending in [valid = false]. *)
Theorem constructor_contains_decode_failures id flow evc ing w :
  fst (EVCMap_init id flow evc ing w) = Ok tt /\
  (forall e,
      fst (_decode {| self := new_EVCMap id flow evc ing; world := w |}) = Raise e ->
      _valid (self (snd (EVCMap_init id flow evc ing w))) = false) /\
  (forall f r E fe,
      flow = Some f -> evc = Some r ->
      evcs w !! r = Some E ->
      EVC.flow_entry E = Some fe ->
      FlowEntry.pop_vlan fe = 1 ->
      length (FlowEntry.push_vlan_id f) = 2%nat ->
      _valid (self (snd (EVCMap_init id flow evc ing w))) = false).
Proof.
  split; [apply EVCMap_init_returns|]. split.
  - intros e He. unfold EVCMap_init. eapply decode_raise_invalid. exact He.
  - intros f r E fe -> -> HE Hfe Hpop Hlen. eapply two_pushed_one_pop_invalid; eauto.
Qed.

Lemma constructor_contains_decode_failures_witness :
  fst (EVCMap_init 5 (Some ex_double_flow) (Some 1%nat) true ex_world) = Ok tt /\
  _valid (self (snd (EVCMap_init 5 (Some ex_double_flow) (Some 1%nat) true ex_world)))
    = false.
Proof.
  destruct (constructor_contains_decode_failures 5 (Some ex_double_flow)
              (Some 1%nat) true ex_world) as (Hret & _ & Htwo).
  split; [exact Hret|].
  apply (Htwo ex_double_flow 1%nat ex_evc ex_evc_flow);
    vm_compute; reflexivity.
Defined.

(** C10, as amended: a failed decode is not undone on the circuit.  Once
    the ingress port is classified as PON or UNI and the lookup of the
    port's name has returned, the circuit's CE-VLAN preservation is off
    after the constructor, whatever the decoder does next; and on the path
    with two pushed tags and one pop the circuit is left in strip-outer,
    double-tagged mode although the descriptor is invalid, has no circuit
    reference and was not added to the circuit's collection.  When the
    lookup of the port's name raises, the decode fails before the circuit is
    written: the descriptor is invalid and every circuit is as it was. *)
Theorem decode_failure_keeps_circuit_mutations id f r ing w E pon uni res s :
  evcs w !! r = Some E ->
  is_pon_port (FlowEntry.handler f) (FlowEntry.in_port f) = Ok pon ->
  is_uni_port (FlowEntry.handler f) (FlowEntry.in_port f) = Ok uni ->
  pon || uni = true ->
  EVCMap_init id (Some f) (Some r) ing w = (res, s) ->
  match get_port_name (FlowEntry.handler f) (FlowEntry.in_port f) with
  | Ok _ =>
      (exists E', evcs (world s) !! r = Some E' /\
                  EVC.ce_vlan_preservation E' = false) /\
      (forall fe,
          EVC.flow_entry E = Some fe ->
          FlowEntry.pop_vlan fe = 1 ->
          length (FlowEntry.push_vlan_id f) = 2%nat ->
          (ing && pon = true -> channel_table_answers f) ->
          _valid (self s) = false /\ _evc (self s) = None /\
          exists E', evcs (world s) !! r = Some E' /\
                     EVC.ce_vlan_preservation E' = false /\
                     EVC.men_to_uni_tag_manipulation E' = EVC.POP_OUT_TAG_ONLY /\
                     EVC.switching_method E' = EVC.DOUBLE_TAGGED /\
                     EVC.evc_maps E' = EVC.evc_maps E)
  | Raise _ =>
      _valid (self s) = false /\ _evc (self s) = None /\
      evcs (world s) = evcs w
  end.
Proof.
  intros HE Hpon Huni Hor Hinit.
  replace s with (snd (EVCMap_init id (Some f) (Some r) ing w))
    by (rewrite Hinit; reflexivity).
  clear Hinit.
  destruct (get_port_name (FlowEntry.handler f) (FlowEntry.in_port f))
    as [port|e] eqn:Hport.
  - unfold EVCMap_init, init_body, _decode. run_monad. simpl.
    rewrite HE. simpl. rewrite Hpon, Huni. simpl. rewrite Hor, Hport. simpl.
    split.
    + exec; found_circuit HE.
    + intros fe Hfe Hpop Hlen Hch. rewrite Hlen. simpl.
      unfold channel_table_answers in Hch.
      destruct (ing && pon) eqn:Hip; simpl.
      * specialize (Hch eq_refl).
        destruct (get_southbound_port _ _) as [[pp|]|]; [| |contradiction]; simpl.
        -- exec;
             try (match goal with
                  | H : gem_ids pp ?a = Raise _ |- _ =>
                      destruct (Hch a) as [? ?]; congruence
                  end);
             repeat split; found_circuit HE.
        -- exec; repeat split; found_circuit HE.
      * exec; repeat split; found_circuit HE.
  - unfold EVCMap_init, init_body, _decode. run_monad. simpl.
    rewrite HE. simpl. rewrite Hpon, Huni. simpl. rewrite Hor, Hport. simpl.
    repeat split.
Qed.

Lemma decode_failure_keeps_circuit_mutations_witness :
  _valid (self (snd (EVCMap_init 5 (Some ex_double_flow) (Some 1%nat) true ex_world)))
    = false /\
  _evc (self (snd (EVCMap_init 5 (Some ex_double_flow) (Some 1%nat) true ex_world)))
    = None /\
  exists E',
    evcs (world (snd (EVCMap_init 5 (Some ex_double_flow) (Some 1%nat) true ex_world)))
      !! 1%nat = Some E' /\
    EVC.ce_vlan_preservation E' = false /\
    EVC.men_to_uni_tag_manipulation E' = EVC.POP_OUT_TAG_ONLY /\
    EVC.switching_method E' = EVC.DOUBLE_TAGGED /\
    EVC.evc_maps E' = EVC.evc_maps ex_evc.
Proof.
  assert (H := decode_failure_keeps_circuit_mutations 5 ex_double_flow 1%nat true
                 ex_world ex_evc false true
                 (fst (EVCMap_init 5 (Some ex_double_flow) (Some 1%nat) true ex_world))
                 (snd (EVCMap_init 5 (Some ex_double_flow) (Some 1%nat) true ex_world))).
  change (get_port_name (FlowEntry.handler ex_double_flow)
            (FlowEntry.in_port ex_double_flow))
    with (@Ok (option string) (Some ("port-" +:+ fmt_Z 7))) in H.
  refine (proj2 (H _ _ _ _ _) ex_evc_flow _ _ _ _).
  - vm_compute; reflexivity.
  - vm_compute; reflexivity.
  - vm_compute; reflexivity.
  - vm_compute; reflexivity.
  - apply surjective_pairing.
  - vm_compute; reflexivity.
  - vm_compute; reflexivity.
  - vm_compute; reflexivity.
  - intros Hpon. discriminate Hpon.
Defined.

(** The original claim puts the circuit's CE-VLAN preservation off as soon
    as the port is classified.  On a PON port whose name lookup raises, the
    decode fails and the circuit still preserves CE-VLANs. *)
Lemma decode_port_name_counterexample :
  is_pon_port (FlowEntry.handler ex_unnamed_flow) (FlowEntry.in_port ex_unnamed_flow)
    = Ok true /\
  get_port_name (FlowEntry.handler ex_unnamed_flow) (FlowEntry.in_port ex_unnamed_flow)
    = Raise KeyError /\
  _valid (self (snd (EVCMap_init 5 (Some ex_unnamed_flow) (Some 1%nat) true ex_world)))
    = false /\
  evcs (world (snd (EVCMap_init 5 (Some ex_unnamed_flow) (Some 1%nat) true ex_world)))
    !! 1%nat = Some ex_evc /\
  EVC.ce_vlan_preservation ex_evc = true /\
  ~ (exists E',
        evcs (world (snd (EVCMap_init 5 (Some ex_unnamed_flow) (Some 1%nat) true
                            ex_world))) !! 1%nat = Some E' /\
        EVC.ce_vlan_preservation E' = false).
Proof.
  repeat split; try (vm_compute; reflexivity).
  intros (E' & HE' & Hoff). vm_compute in HE'. injection HE' as <-.
  discriminate Hoff.
Qed.

Lemma pon_install_onu_fixed gvid u s :
  fixed_part (snd (pon_install_onu gvid u s)) = fixed_part s.
Proof.
  unfold pon_install_onu. run_monad. simpl. exec; reflexivity.
Qed.

Lemma for_each_fixed {A} (body : A -> M St unit) l :
  (forall x s, fixed_part (snd (body x s)) = fixed_part s) ->
  forall s, fixed_part (snd (for_each l body s)) = fixed_part s.
Proof.
  intros Hbody. induction l as [|x l IH]; intros s; simpl; [reflexivity|].
  unfold bind. specialize (Hbody x s).
  destruct (body x s) as [[[]|e] s1]; simpl in *.
  - rewrite IH. exact Hbody.
  - exact Hbody.
Qed.

Lemma pon_install_fixed gvid s :
  fixed_part (snd (pon_install gvid s)) = fixed_part s.
Proof.
  unfold pon_install. run_monad. simpl.
  destruct (_valid (self s) && negb (_installed (self s))); simpl; [|reflexivity].
  destruct (_gem_ids (self s)) as [[d|]|] eqn:Hg; simpl; try reflexivity.
  pose proof (for_each_fixed (pon_install_onu gvid) d (pon_install_onu_fixed gvid)
                (on_self (set_installed true) s)) as H.
  unfold on_self in H.
  destruct (for_each d (pon_install_onu gvid) _) as [[[]|e] s1]; simpl in *;
    rewrite H; unfold fixed_part; simpl; rewrite Hg; reflexivity.
Qed.

Lemma install_fixed gvid s : fixed_part (snd (install gvid s)) = fixed_part s.
Proof.
  unfold install. run_monad. simpl.
  destruct (_gem_ids (self s)) as [g|] eqn:Hg; simpl.
  - pose proof (pon_install_fixed gvid s) as H.
    destruct (pon_install gvid s) as [[b|e] s1]; simpl in *; exact H.
  - exec; reflexivity.
Qed.

Lemma remove_fixed s : fixed_part (snd (remove s)) = fixed_part s.
Proof. unfold remove. run_monad. simpl. exec; reflexivity. Qed.

Lemma enable_fixed s : fixed_part (snd (enable s)) = fixed_part s.
Proof. unfold enable. run_monad. simpl. exec; reflexivity. Qed.

Lemma disable_fixed s : fixed_part (snd (disable s)) = fixed_part s.
Proof. unfold disable. run_monad. simpl. exec; reflexivity. Qed.

Lemma run_op_fixed gvid o s :
  o <> OpDelete -> fixed_part (snd (run_op gvid o s)) = fixed_part s.
Proof.
  destruct o; simpl; intros Ho;
    auto using install_fixed, pon_install_fixed, remove_fixed, enable_fixed,
               disable_fixed.
  congruence.
Qed.

(** [delete] in terms of [remove]. *)
Lemma delete_unfold s :
  delete s =
  (let rs := remove (on_self (set_valid false) s) in
   let m := set_evc None (set_flow None (self (snd rs))) in
   (Ok (match fst rs with Ok b => b | Raise _ => false end),
    {| self := m;
       world := match _evc (self (snd rs)) with
                | Some r =>
                    set_evcs (alter (EVC.remove_evc_map (_name m)) r
                                    (evcs (world (snd rs)))) (world (snd rs))
                | None => world (snd rs)
                end |})).
Proof.
  unfold delete. run_monad. simpl.
  destruct (remove _) as [[b|e] s1]; simpl;
    destruct (_evc (self s1)); reflexivity.
Qed.

Lemma maps_of_alter_same f r es r0 :
  (forall E, EVC.evc_maps (f E) = EVC.evc_maps E) ->
  maps_of (alter f r es) r0 = maps_of es r0.
Proof.
  intros Hf. unfold maps_of. destruct (decide (r = r0)) as [->|Hne].
  - rewrite lookup_alter_eq. destruct (es !! r0); simpl; [|reflexivity].
    rewrite Hf. reflexivity.
  - rewrite lookup_alter_ne by exact Hne. reflexivity.
Qed.

Lemma registered_maps_of w r m :
  registered w r m <->
  exists c, maps_of (evcs w) r = Some c /\ c !! _name m = Some (self_id m).
Proof.
  unfold registered, maps_of. split.
  - intros (E & HE & Hm). exists (EVC.evc_maps E). rewrite HE. auto.
  - intros (c & Hc & Hm). destruct (evcs w !! r) as [E|]; simpl in Hc; [|discriminate].
    injection Hc as <-. eauto.
Qed.

Lemma fresh_maps_of w id r c n :
  fresh_id w id -> maps_of (evcs w) r = Some c -> c !! n <> Some id.
Proof.
  unfold maps_of. intros Hfresh Hc.
  destruct (evcs w !! r) as [E|] eqn:HE; simpl in Hc; [|discriminate].
  injection Hc as <-. exact (Hfresh r E n HE).
Qed.

(** The decoder leaves the descriptor's identity, its circuit reference and
    every collection as they are. *)
Lemma decode_frame s :
  self_id (self (snd (_decode s))) = self_id (self s) /\
  _evc (self (snd (_decode s))) = _evc (self s) /\
  forall r0, maps_of (evcs (world (snd (_decode s)))) r0 = maps_of (evcs (world s)) r0.
Proof.
  unfold _decode. run_monad. simpl.
  exec; repeat split; try reflexivity; try assumption; intros r0;
    rewrite ?maps_of_alter_same by reflexivity; reflexivity.
Qed.

(** A decoder that accepts has found the circuit and taken its name. *)
Lemma decode_true s :
  fst (_decode s) = Ok true ->
  exists r, _evc (self s) = Some r /\
            is_Some (evcs (world (snd (_decode s))) !! r) /\
            _evc_name (self (snd (_decode s))) <> None /\
            _status_message (self (snd (_decode s))) = _status_message (self s) /\
            _installed (self (snd (_decode s))) = _installed (self s).
Proof.
  unfold _decode. run_monad. simpl.
  exec; intros H; try discriminate H;
    (eexists; split; [reflexivity|]);
    (split; [rewrite ?lookup_alter_eq;
             match goal with HE : _ !! _ = Some _ |- _ => rewrite HE end;
             simpl; eauto
            | repeat split; discriminate ]).
Qed.

(** The invariant holds when the constructor is done. *)
Lemma init_body_registration evc s0 :
  _evc (self s0) = evc ->
  fresh_id (world s0) (self_id (self s0)) ->
  registration_inv (snd (init_body evc s0)) /\
  (_valid (self (snd (init_body evc s0))) = false ->
   _evc (self (snd (init_body evc s0))) = None) /\
  (_valid (self (snd (init_body evc s0))) = true ->
   _evc_name (self (snd (init_body evc s0))) <> None /\
   _status_message (self (snd (init_body evc s0))) = _status_message (self s0) /\
   _installed (self (snd (init_body evc s0))) = _installed (self s0)).
Proof.
  intros Hevc Hfresh.
  pose proof (decode_frame s0) as Hframe. pose proof (decode_true s0) as Htrue.
  revert Hframe Htrue. unfold init_body. generalize _decode. intros d.
  run_monad. destruct (d s0) as [[[|]|e] s1]; simpl;
    intros (Hid & Hev & Hmaps) Htrue.
  - (* the decoder accepts *)
    destruct (Htrue eq_refl) as (r & Hr & [E1 HE1] & Hname & Hstatus & Hinst).
    rewrite <- Hevc, Hr. simpl. split; [|split; [discriminate|auto]].
    intros r0. rewrite registered_maps_of. simpl.
    rewrite Hev, Hr, Hid. destruct (decide (r = r0)) as [<-|Hne].
    + unfold maps_of. rewrite lookup_alter_eq, HE1. simpl. split; [auto|].
      intros _. eexists; split; [reflexivity|]. apply lookup_insert_eq.
    + split; [|intros [_ H]; congruence].
      intros (c & Hc & Hm). exfalso.
      unfold maps_of in Hc. rewrite lookup_alter_ne in Hc by exact Hne.
      fold (maps_of (evcs (world s1)) r0) in Hc. rewrite Hmaps in Hc.
      exact (fresh_maps_of _ _ _ _ _ Hfresh Hc Hm).
  - (* the decoder rejects *)
    split; [|split; [reflexivity|discriminate]].
    intros r0. split; [|intros [H _]; discriminate H].
    rewrite registered_maps_of. simpl. rewrite Hmaps, Hid.
    intros (c & Hc & Hm). destruct (fresh_maps_of _ _ _ _ _ Hfresh Hc Hm).
  - (* the decoder raises *)
    split; [|split; [reflexivity|discriminate]].
    intros r0. split; [|intros [H _]; discriminate H].
    rewrite registered_maps_of. simpl. rewrite Hmaps, Hid.
    intros (c & Hc & Hm). destruct (fresh_maps_of _ _ _ _ _ Hfresh Hc Hm).
Qed.

(** The invariant is kept by an operation that changes neither the
    descriptor's fixed part nor the circuits. *)
Lemma registration_inv_fixed s s' :
  fixed_part s' = fixed_part s -> registration_inv s -> registration_inv s'.
Proof.
  unfold fixed_part, registration_inv, registered. intros Hfix Hinv r.
  injection Hfix as Hid Hname _ _ Hvalid Hevc _ _ _ _ _ _ _ Hevcs.
  rewrite Hid, Hname, Hvalid, Hevc, Hevcs. apply Hinv.
Qed.

(** [delete] re-establishes it with [valid = false]. *)
Lemma delete_registration s :
  registration_inv s -> registration_inv (snd (delete s)).
Proof.
  intros Hinv r0. rewrite delete_unfold. simpl.
  pose proof (remove_fixed (on_self (set_valid false) s)) as Hfix.
  destruct (remove (on_self (set_valid false) s)) as [res s1]. simpl in *.
  unfold fixed_part in Hfix. simpl in Hfix.
  injection Hfix as Hid Hname _ _ Hvalid Hevc _ _ _ _ _ _ _ Hevcs.
  split; [|intros [H _]; congruence].
  intros (E & HE & Hm). simpl in HE, Hm. exfalso.
  rewrite Hid, Hname in Hm. rewrite Hevc in HE.
  destruct (_evc (self s)) as [r|] eqn:Hr; simpl in HE.
  - rewrite Hevcs in HE. destruct (decide (r = r0)) as [<-|Hne].
    + rewrite lookup_alter_eq in HE.
      destruct (evcs (world s) !! r) as [E0|]; simpl in HE; [|discriminate].
      injection HE as <-. simpl in Hm. rewrite Hname in Hm.
      rewrite lookup_delete_eq in Hm. discriminate.
    + rewrite lookup_alter_ne in HE by exact Hne.
      assert (registered (world s) r0 (self s)) as Hreg by (exists E; auto).
      apply Hinv in Hreg. destruct Hreg as [_ H]. congruence.
  - rewrite Hevcs in HE.
    assert (registered (world s) r0 (self s)) as Hreg by (exists E; auto).
    apply Hinv in Hreg. destruct Hreg as [_ H]. congruence.
Qed.

Lemma run_op_registration gvid o s :
  registration_inv s -> registration_inv (snd (run_op gvid o s)).
Proof.
  intros Hinv.
  destruct o; try (apply delete_registration, Hinv);
    (eapply registration_inv_fixed; [apply run_op_fixed; discriminate | exact Hinv]).
Qed.

Lemma exec_ops_registration gvid ops :
  forall s, registration_inv s -> registration_inv (exec_ops gvid ops s).
Proof.
  unfold exec_ops. induction ops as [|o ops IH]; intros s Hinv; simpl.
  - exact Hinv.
  - apply IH, run_op_registration, Hinv.
Qed.

Lemma delete_clears_valid s : _valid (self (snd (delete s))) = false.
Proof.
  rewrite delete_unfold. simpl.
  pose proof (remove_fixed (on_self (set_valid false) s)) as Hfix.
  unfold fixed_part in Hfix. simpl in Hfix.
  injection Hfix as _ _ _ _ Hvalid _ _ _ _ _ _ _ _ _. exact Hvalid.
Qed.

Lemma run_op_keeps_valid gvid o s :
  o <> OpDelete -> _valid (self (snd (run_op gvid o s))) = _valid (self s).
Proof.
  intros Hne. pose proof (run_op_fixed gvid o s Hne) as Hfix.
  unfold fixed_part in Hfix.
  injection Hfix as _ _ _ _ Hvalid _ _ _ _ _ _ _ _ _. exact Hvalid.
Qed.

(** A valid descriptor refers to a circuit: after the constructor and
    after every operation. *)
Lemma init_body_refers evc s0 :
  _evc (self s0) = evc -> refers_to_circuit (snd (init_body evc s0)).
Proof.
  intros Hevc.
  pose proof (decode_frame s0) as Hframe. pose proof (decode_true s0) as Htrue.
  revert Hframe Htrue. unfold refers_to_circuit, init_body. generalize _decode.
  intros d. run_monad. destruct (d s0) as [[[|]|e] s1]; simpl;
    intros (Hid & Hev & Hmaps) Htrue Hvalid; try discriminate Hvalid.
  destruct (Htrue eq_refl) as (r & Hr & _).
  rewrite <- Hevc, Hr in *. simpl in *. exists r. exact Hev.
Qed.

Lemma run_op_refers gvid o s :
  refers_to_circuit s -> refers_to_circuit (snd (run_op gvid o s)).
Proof.
  unfold refers_to_circuit. intros Hs.
  destruct (match o with OpDelete => true | _ => false end) eqn:Ho.
  - destruct o; try discriminate Ho. simpl.
    rewrite delete_clears_valid. discriminate.
  - assert (o <> OpDelete) as Hne by (intros ->; discriminate Ho).
    pose proof (run_op_fixed gvid o s Hne) as Hfix. unfold fixed_part in Hfix.
    injection Hfix as _ _ _ _ Hvalid Hevc _ _ _ _ _ _ _ _.
    rewrite Hvalid, Hevc. exact Hs.
Qed.

Lemma exec_ops_refers gvid ops :
  forall s, refers_to_circuit s -> refers_to_circuit (exec_ops gvid ops s).
Proof.
  unfold exec_ops. induction ops as [|o ops IH]; intros s Hs; simpl.
  - exact Hs.
  - apply IH, run_op_refers, Hs.
Qed.

(** C6: from the end of the constructor on, through any sequence of
    lifecycle operations, the descriptor is in the collection of a circuit
    exactly when it is valid and refers to that circuit; a valid descriptor
    does refer to a circuit and is in its collection, and an invalid one is
    in no collection.  A failed decode leaves it without a circuit
    reference; every operation but [delete] keeps [valid]; [delete] clears
    it, and the invariant holds again. *)
Theorem registration_invariant gvid id flow evc ing w ops :
  fresh_id w id ->
  registration_inv (exec_ops gvid ops (snd (EVCMap_init id flow evc ing w))) /\
  (_valid (self (exec_ops gvid ops (snd (EVCMap_init id flow evc ing w)))) = true ->
   exists r,
     _evc (self (exec_ops gvid ops (snd (EVCMap_init id flow evc ing w)))) = Some r /\
     registered (world (exec_ops gvid ops (snd (EVCMap_init id flow evc ing w)))) r
                (self (exec_ops gvid ops (snd (EVCMap_init id flow evc ing w))))) /\
  (_valid (self (exec_ops gvid ops (snd (EVCMap_init id flow evc ing w)))) = false ->
   forall r,
     ~ registered (world (exec_ops gvid ops (snd (EVCMap_init id flow evc ing w)))) r
                  (self (exec_ops gvid ops (snd (EVCMap_init id flow evc ing w))))) /\
  (_valid (self (snd (EVCMap_init id flow evc ing w))) = false ->
   _evc (self (snd (EVCMap_init id flow evc ing w))) = None) /\
  (forall o s, o <> OpDelete ->
               _valid (self (snd (run_op gvid o s))) = _valid (self s)) /\
  (forall s, _valid (self (snd (run_op gvid OpDelete s))) = false).
Proof.
  intros Hfresh.
  destruct (init_body_registration evc
              {| self := new_EVCMap id flow evc ing; world := w |}
              eq_refl Hfresh) as (Hinv0 & Hnone & _).
  pose proof (exec_ops_registration gvid ops _ Hinv0) as Hinv.
  pose proof (exec_ops_refers gvid ops _
                (init_body_refers evc
                   {| self := new_EVCMap id flow evc ing; world := w |} eq_refl))
    as Hrefers.
  fold (EVCMap_init id flow evc ing w) in Hinv, Hrefers.
  split; [exact Hinv|]. split; [|split].
  - intros Hvalid. destruct (Hrefers Hvalid) as [r Hr].
    exists r. split; [exact Hr|]. apply Hinv. split; assumption.
  - intros Hvalid r Hreg. apply Hinv in Hreg. destruct Hreg as [Hv _].
    rewrite Hvalid in Hv. discriminate Hv.
  - split; [exact Hnone|].
    split; [intros o s; apply run_op_keeps_valid | intros s; apply delete_clears_valid].
Qed.

Lemma run_op_names_circuit gvid o s :
  names_circuit s -> names_circuit (snd (run_op gvid o s)).
Proof.
  unfold names_circuit. intros Hs.
  destruct (match o with OpDelete => true | _ => false end) eqn:Ho.
  - destruct o; try discriminate Ho. simpl.
    rewrite delete_clears_valid. discriminate.
  - assert (o <> OpDelete) as Hne by (intros ->; discriminate Ho).
    pose proof (run_op_fixed gvid o s Hne) as Hfix. unfold fixed_part in Hfix.
    injection Hfix as _ _ Hname _ Hvalid _ _ _ _ _ _ _ _ _.
    rewrite Hname, Hvalid. exact Hs.
Qed.

Lemma exec_ops_names_circuit gvid ops :
  forall s, names_circuit s -> names_circuit (exec_ops gvid ops s).
Proof.
  unfold exec_ops. induction ops as [|o ops IH]; intros s Hs; simpl.
  - exact Hs.
  - apply IH, run_op_names_circuit, Hs.
Qed.

Lemma init_names_circuit id flow evc ing w :
  names_circuit (snd (EVCMap_init id flow evc ing w)).
Proof.
  unfold names_circuit, EVCMap_init. intros Hvalid.
  pose proof (decode_true {| self := new_EVCMap id flow evc ing; world := w |})
    as Htrue.
  revert Hvalid Htrue. unfold init_body. generalize _decode. intros d.
  run_monad. destruct (d _) as [[[|]|e] s1]; simpl; try discriminate.
  intros _ Htrue. destruct (Htrue eq_refl) as (r & Hr & _ & Hname & _).
  simpl in Hr. rewrite Hr. simpl. exact Hname.
Qed.

(** The ACL placeholder of [install], on a descriptor whose circuit name is
    set. *)
Lemma install_acl_run gvid s :
  _valid (self s) = true ->
  _installed (self s) = false ->
  _gem_ids (self s) = None ->
  _needs_acl_support (self s) = true ->
  _evc_name (self s) <> None ->
  install gvid s
  = (Ok true, on_world (add_log "creating") (on_self (set_installed true) s)).
Proof.
  intros Hvalid Hinst Hgem Hacl Hname.
  unfold install. run_monad. rewrite Hgem, Hvalid, Hinst. simpl.
  unfold install_xml, connection_xml.
  destruct (_evc_name (self s)) as [n|]; [|contradiction]. simpl.
  rewrite Hacl. simpl. rewrite Hvalid. reflexivity.
Qed.

(** C4, as amended: on a valid descriptor that is not installed, has no
    channel table and needs ACL support, [install] returns true, sets
    [installed], sends nothing to the transport and leaves the status as it
    was. *)
Theorem install_acl_placeholder gvid id flow evc ing w ops s :
  s = exec_ops gvid ops (snd (EVCMap_init id flow evc ing w)) ->
  _valid (self s) = true ->
  _installed (self s) = false ->
  _gem_ids (self s) = None ->
  _needs_acl_support (self s) = true ->
  fst (install gvid s) = Ok true /\
  _installed (self (snd (install gvid s))) = true /\
  _status_message (self (snd (install gvid s))) = _status_message (self s) /\
  sent (world (snd (install gvid s))) = sent (world s).
Proof.
  intros Hs Hvalid Hinst Hgem Hacl.
  assert (_evc_name (self s) <> None) as Hname.
  { rewrite Hs in Hvalid |- *.
    exact (exec_ops_names_circuit gvid ops _
             (init_names_circuit id flow evc ing w) Hvalid). }
  rewrite (install_acl_run gvid s Hvalid Hinst Hgem Hacl Hname).
  repeat split.
Qed.

(** On a descriptor fresh from the constructor the status is still [None]
    after the placeholder install. *)
Lemma install_acl_status_counterexample :
  _valid (self ex_acl_state) = true /\
  _installed (self ex_acl_state) = false /\
  _gem_ids (self ex_acl_state) = None /\
  _needs_acl_support (self ex_acl_state) = true /\
  _status_message (self (snd (install (fun g => g) ex_acl_state))) = None /\
  ~ (_installed (self (snd (install (fun g => g) ex_acl_state))) = true /\
     _status_message (self (snd (install (fun g => g) ex_acl_state)))
       = Some EmptyString /\
     sent (world (snd (install (fun g => g) ex_acl_state)))
       = sent (world ex_acl_state)).
Proof.
  repeat split; try (vm_compute; reflexivity).
  intros (_ & H & _). vm_compute in H. discriminate H.
Qed.

Lemma install_acl_placeholder_witness :
  fst (install (fun g => g) ex_acl_state) = Ok true /\
  _installed (self (snd (install (fun g => g) ex_acl_state))) = true /\
  _status_message (self (snd (install (fun g => g) ex_acl_state)))
    = _status_message (self ex_acl_state) /\
  sent (world (snd (install (fun g => g) ex_acl_state))) = sent (world ex_acl_state).
Proof.
  apply (install_acl_placeholder (fun g => g) 5
           (Some (ex_flow [] 7 (Some 0x0800) [10])) (Some 1%nat) true ex_world []
           ex_acl_state); vm_compute; reflexivity.
Defined.

(** C9: on an installed descriptor without ACL needs, whose request gets a
    reply, [enable] sets the enabled flag to the reply's success and
    [disable] sets it to the negation: success gives the requested value, a
    failed reply forces false after [enable] and keeps true after
    [disable]. *)
Theorem enable_disable_response s f rep (requested : bool) :
  _installed (self s) = true ->
  _needs_acl_support (self s) = false ->
  _flow (self s) = Some f ->
  _enabled (self s) = negb requested ->
  edit_config (netconf_client (FlowEntry.handler f)) (sent (world s))
    (if requested then enable_xml (self s) else disable_xml (self s)) None 30
    = Reply rep ->
  _enabled (self (snd ((if requested then enable else disable) s)))
    = (if requested then ok rep else negb (ok rep)) /\
  (ok rep = true ->
   _enabled (self (snd ((if requested then enable else disable) s))) = requested) /\
  (ok rep = false ->
   _enabled (self (snd ((if requested then enable else disable) s)))
     = (if requested then negb requested else _enabled (self s))).
Proof.
  intros Hinst Hacl Hflow Hen Hreply.
  assert (_enabled (self (snd ((if requested then enable else disable) s)))
          = (if requested then ok rep else negb (ok rep))) as Hflag.
  { destruct requested; simpl in Hen.
    - unfold enable. run_monad. rewrite Hinst, Hen. simpl.
      rewrite Hacl. simpl. rewrite Hflow. simpl. rewrite Hreply. simpl.
      destruct (ok rep); reflexivity.
    - unfold disable. run_monad. rewrite Hinst, Hen. simpl.
      rewrite Hacl. simpl. rewrite Hflow. simpl. rewrite Hreply. simpl.
      destruct (ok rep); reflexivity. }
  split; [exact Hflag|]. rewrite Hflag, Hen.
  split; intros ->; destruct requested; reflexivity.
Qed.

(** C1: [delete] never raises; it returns what [remove] returns on the
    descriptor already marked invalid, or false when [remove] raises; the
    descriptor ends invalid, without flow and without circuit, and the
    collection of the circuit it referred to no longer holds it.  A
    descriptor that was not installed gives false and sends nothing. *)
Theorem delete_detaches s :
  fst (delete s)
    = Ok (match fst (remove (on_self (set_valid false) s)) with
          | Ok outcome => outcome
          | Raise _ => false
          end) /\
  _valid (self (snd (delete s))) = false /\
  _flow (self (snd (delete s))) = None /\
  _evc (self (snd (delete s))) = None /\
  (forall r, _evc (self s) = Some r ->
             ~ registered (world (snd (delete s))) r (self (snd (delete s)))) /\
  (_installed (self s) = false ->
   fst (delete s) = Ok false /\ sent (world (snd (delete s))) = sent (world s)).
Proof.
  rewrite delete_unfold. simpl.
  pose proof (remove_fixed (on_self (set_valid false) s)) as Hfix.
  unfold fixed_part in Hfix. simpl in Hfix.
  injection Hfix as Hid Hname _ _ Hvalid Hevc _ _ _ _ _ _ _ Hevcs.
  split; [reflexivity|]. split; [exact Hvalid|].
  split; [reflexivity|]. split; [reflexivity|]. split.
  - intros r Hr (E & HE & Hm). simpl in HE, Hm.
    rewrite Hevc, Hr in HE. simpl in HE.
    rewrite lookup_alter_eq in HE.
    destruct (evcs (world (snd (remove (on_self (set_valid false) s)))) !! r)
      as [E0|]; simpl in HE; [|discriminate].
    injection HE as <-. simpl in Hm. rewrite lookup_delete_eq in Hm. discriminate.
  - intros Hinst. unfold remove. run_monad. simpl. rewrite !Hinst. simpl.
    rewrite ?Hinst. destruct (_evc (self s)); split; reflexivity.
Qed.

Lemma pon_entries_xml_doc gvid m conn onu gems :
  connection_xml m = Ok conn ->
  forall xml,
    pon_entries_xml gvid m onu gems xml
    = Ok (fold_left (fun xml g => xml +:+ pon_entry_doc gvid m conn onu g) gems xml).
Proof.
  intros Hconn. induction gems as [|g gems IH]; intros xml; simpl; [reflexivity|].
  unfold pon_entry_xml. rewrite Hconn. rewrite IH. reflexivity.
Qed.

Lemma pon_xml_doc gvid m conn u :
  connection_xml m = Ok conn ->
  pon_xml gvid m (fst u) (snd u) = Ok (pon_unit_doc gvid m conn u).
Proof.
  intros Hconn. unfold pon_xml, pon_unit_doc.
  rewrite (pon_entries_xml_doc gvid m conn (fst u) (snd u) Hconn). reflexivity.
Qed.

(** What one turn of the loop does when the device replies, and when the
    submission fails. *)
Lemma pon_install_onu_reply gvid s f conn u rep :
  _flow (self s) = Some f ->
  connection_xml (self s) = Ok conn ->
  edit_config (netconf_client (FlowEntry.handler f)) (sent (world s))
    (pon_unit_doc gvid (self s) conn u) None 30 = Reply rep ->
  pon_install_onu gvid u s
  = (Ok tt,
     {| self := set_status_message
                  (if ok rep then Some EmptyString else error rep)
                  (set_installed (ok rep) (self s));
        world := add_sent (EditConfig (pon_unit_doc gvid (self s) conn u) None 30)
                          (add_log "creating" (world s)) |}).
Proof.
  intros Hflow Hconn Hrep. unfold pon_install_onu. run_monad.
  rewrite (pon_xml_doc gvid (self s) conn u Hconn). simpl.
  rewrite Hflow. simpl. rewrite Hrep. simpl. destruct (ok rep); reflexivity.
Qed.

Lemma pon_install_onu_failure gvid s f conn u e :
  _flow (self s) = Some f ->
  connection_xml (self s) = Ok conn ->
  edit_config (netconf_client (FlowEntry.handler f)) (sent (world s))
    (pon_unit_doc gvid (self s) conn u) None 30 = Failure e ->
  pon_install_onu gvid u s
  = (Raise e,
     {| self := set_installed false (self s);
        world := add_log "install"
                   (add_sent (EditConfig (pon_unit_doc gvid (self s) conn u) None 30)
                             (add_log "creating" (world s))) |}).
Proof.
  intros Hflow Hconn Hrep. unfold pon_install_onu. run_monad.
  rewrite (pon_xml_doc gvid (self s) conn u Hconn). simpl.
  rewrite Hflow. simpl. rewrite Hrep. simpl. reflexivity.
Qed.

(** The loop over the ONUs: while the device replies every document is
    submitted and the flag follows the latest reply; the first failure clears
    the flag and ends the loop. *)
Lemma pon_loop_run gvid f conn d :
  forall s,
    _flow (self s) = Some f ->
    connection_xml (self s) = Ok conn ->
    (forall replies,
        outcomes (netconf_client (FlowEntry.handler f)) (sent (world s))
                 (map (pon_unit_doc gvid (self s) conn) d) = map Reply replies ->
        fst (for_each d (pon_install_onu gvid) s) = Ok tt /\
        _installed (self (snd (for_each d (pon_install_onu gvid) s)))
          = default (_installed (self s)) (ok <$> last replies) /\
        sent (world (snd (for_each d (pon_install_onu gvid) s)))
          = (sent (world s)
             ++ map edit_request (map (pon_unit_doc gvid (self s) conn) d))%list) /\
    (forall replies e rest,
        outcomes (netconf_client (FlowEntry.handler f)) (sent (world s))
                 (map (pon_unit_doc gvid (self s) conn) d)
          = (map Reply replies ++ Failure e :: rest)%list ->
        fst (for_each d (pon_install_onu gvid) s) = Raise e /\
        _installed (self (snd (for_each d (pon_install_onu gvid) s))) = false /\
        sent (world (snd (for_each d (pon_install_onu gvid) s)))
          = (sent (world s)
             ++ map edit_request
                  (take (S (length replies))
                        (map (pon_unit_doc gvid (self s) conn) d)))%list).
Proof.
  induction d as [|u d IH]; intros s Hflow Hconn.
  - split.
    + intros replies Houts. simpl in *.
      destruct replies; [|discriminate Houts]. simpl.
      rewrite app_nil_r. auto.
    + intros replies e rest Houts. simpl in Houts.
      destruct replies; discriminate Houts.
  - split.
    + intros [|r replies] Houts; simpl in Houts; [discriminate Houts|].
      injection Houts as Hrep Houts.
      simpl. unfold bind.
      rewrite (pon_install_onu_reply gvid s f conn u r Hflow Hconn Hrep).
      match goal with |- context [for_each d _ ?s1] =>
        destruct (IH s1 Hflow Hconn) as [IH1 _] end.
      destruct (IH1 replies Houts) as (Hres & Hinst & Hsent).
      split; [exact Hres|]. split.
      * rewrite Hinst. simpl. destruct replies as [|r' replies]; [reflexivity|].
        rewrite last_cons_cons.
        destruct (last (r' :: replies)) eqn:Hlast; [reflexivity|].
        apply last_None in Hlast. discriminate Hlast.
      * rewrite Hsent. simpl. rewrite <- app_assoc. reflexivity.
    + intros [|r replies] e rest Houts; simpl in Houts.
      * injection Houts as Hrep _. simpl. unfold bind.
        rewrite (pon_install_onu_failure gvid s f conn u e Hflow Hconn Hrep).
        simpl. auto.
      * injection Houts as Hrep Houts.
        simpl. unfold bind.
        rewrite (pon_install_onu_reply gvid s f conn u r Hflow Hconn Hrep).
        match goal with |- context [for_each d _ ?s1] =>
          destruct (IH s1 Hflow Hconn) as [_ IH2] end.
        destruct (IH2 replies e rest Houts) as (Hres & Hinst & Hsent).
        split; [exact Hres|]. split; [exact Hinst|].
        rewrite Hsent. simpl. rewrite <- app_assoc. reflexivity.
Qed.

Lemma names_circuit_connection s :
  names_circuit s -> _valid (self s) = true ->
  exists conn, connection_xml (self s) = Ok conn.
Proof.
  intros Hs Hvalid. specialize (Hs Hvalid). unfold connection_xml.
  destruct (_evc_name (self s)) as [n|]; [eauto | contradiction].
Qed.

Lemma pon_install_unfold gvid s d :
  _valid (self s) = true ->
  _installed (self s) = false ->
  _gem_ids (self s) = Some (GemDict d) ->
  pon_install gvid s
  = (let rs := for_each d (pon_install_onu gvid) (on_self (set_installed true) s) in
     match fst rs with
     | Ok _ => (Ok (_installed (self (snd rs)) && _valid (self (snd rs))), snd rs)
     | Raise e => (Raise e, snd rs)
     end).
Proof.
  intros Hvalid Hinst Hgem. unfold pon_install. run_monad.
  rewrite Hvalid, Hinst. simpl. rewrite Hgem.
  destruct (for_each d _ _) as [[[]|e] s1]; reflexivity.
Qed.

Lemma for_each_keeps_valid gvid d s :
  _valid (self (snd (for_each d (pon_install_onu gvid) s))) = _valid (self s).
Proof.
  pose proof (for_each_fixed (pon_install_onu gvid) d (pon_install_onu_fixed gvid) s)
    as Hfix.
  unfold fixed_part in Hfix. injection Hfix as _ _ _ _ Hvalid _ _ _ _ _ _ _ _ _.
  exact Hvalid.
Qed.

(** C2, as amended: on a valid descriptor that is not installed and has a
    channel table, [installed] is set to true before the loop over the
    ONUs.  With an empty table that is all that happens: nothing is
    submitted and true is returned.  Otherwise one document per ONU is
    submitted, in the order of the table, each the header, one entry per
    GEM id of that ONU and the trailer.  While the device replies,
    [installed] follows the latest reply, so it ends as the success of the
    last ONU's reply; the first submission that fails clears [installed],
    ends the loop and is raised again. *)
Theorem pon_install_fan_out gvid id flow evc ing w ops s f d :
  s = exec_ops gvid ops (snd (EVCMap_init id flow evc ing w)) ->
  _valid (self s) = true ->
  _installed (self s) = false ->
  _gem_ids (self s) = Some (GemDict d) ->
  _flow (self s) = Some f ->
  exists conn,
    connection_xml (self s) = Ok conn /\
    snd (pon_install gvid s)
      = snd (for_each d (pon_install_onu gvid) (on_self (set_installed true) s)) /\
    (d = [] ->
     pon_install gvid s = (Ok true, on_self (set_installed true) s)) /\
    (forall replies,
        d <> [] ->
        outcomes (netconf_client (FlowEntry.handler f)) (sent (world s))
                 (map (pon_unit_doc gvid (self s) conn) d) = map Reply replies ->
        exists r,
          last replies = Some r /\
          fst (pon_install gvid s) = Ok (ok r) /\
          _installed (self (snd (pon_install gvid s))) = ok r /\
          sent (world (snd (pon_install gvid s)))
            = (sent (world s)
               ++ map edit_request (map (pon_unit_doc gvid (self s) conn) d))%list) /\
    (forall replies e rest,
        outcomes (netconf_client (FlowEntry.handler f)) (sent (world s))
                 (map (pon_unit_doc gvid (self s) conn) d)
          = (map Reply replies ++ Failure e :: rest)%list ->
        fst (pon_install gvid s) = Raise e /\
        _installed (self (snd (pon_install gvid s))) = false /\
        sent (world (snd (pon_install gvid s)))
          = (sent (world s)
             ++ map edit_request
                  (take (S (length replies))
                        (map (pon_unit_doc gvid (self s) conn) d)))%list).
Proof.
  intros Hs Hvalid Hinst Hgem Hflow.
  assert (names_circuit s) as Hnames.
  { rewrite Hs. apply exec_ops_names_circuit, init_names_circuit. }
  destruct (names_circuit_connection s Hnames Hvalid) as [conn Hconn].
  exists conn. split; [exact Hconn|].
  rewrite (pon_install_unfold gvid s d Hvalid Hinst Hgem).
  pose proof (for_each_keeps_valid gvid d (on_self (set_installed true) s)) as Hv.
  destruct (pon_loop_run gvid f conn d (on_self (set_installed true) s) Hflow Hconn)
    as [Hreplies Hfailure].
  simpl in Hv, Hreplies, Hfailure. rewrite Hvalid in Hv.
  split; [|split; [|split]].
  - simpl. destruct (fst (for_each d _ _)); reflexivity.
  - intros ->. simpl. rewrite Hvalid. reflexivity.
  - intros replies Hd Houts.
    destruct (Hreplies replies Houts) as (Hres & Hflag & Hsent).
    destruct (last replies) as [r|] eqn:Hlast.
    + exists r. simpl in *. rewrite Hres. simpl. rewrite Hv, Hflag, andb_true_r. auto.
    + apply last_None in Hlast. subst replies.
      destruct d; [contradiction|discriminate Houts].
  - intros replies e rest Houts.
    destruct (Hfailure replies e rest Houts) as (Hres & Hflag & Hsent).
    simpl. rewrite Hres. simpl. auto.
Qed.

Lemma pon_install_fan_out_witness :
  (exists conn,
      connection_xml (self (ex_pon_state [])) = Ok conn /\
      snd (pon_install (fun g => g) (ex_pon_state []))
        = snd (for_each [(1, [2001; 2002]); (2, [2101])]
                 (pon_install_onu (fun g => g))
                 (on_self (set_installed true) (ex_pon_state [])))) /\
  _installed (self ex_empty_table_state) = false /\
  pon_install (fun g => g) ex_empty_table_state
    = (Ok true, on_self (set_installed true) ex_empty_table_state).
Proof.
  split; [|split; [vm_compute; reflexivity|]].
  - destruct (pon_install_fan_out (fun g => g) 5
                (Some (ex_flow [] 1029 None [10])) (Some 1%nat) true ex_world []
                (ex_pon_state []) (ex_flow [] 1029 None [10])
                [(1, [2001; 2002]); (2, [2101])])
      as (conn & Hconn & Hrun & _); try (vm_compute; reflexivity).
    exists conn. split; [exact Hconn | exact Hrun].
  - destruct (pon_install_fan_out (fun g => g) 5
                (Some ex_empty_table_flow) (Some 1%nat) true ex_world []
                ex_empty_table_state ex_empty_table_flow [])
      as (conn & _ & _ & Hempty & _);
      [vm_compute; reflexivity .. | exact (Hempty eq_refl)].
Defined.

(** With a failed reply for the first ONU and success for the second, the
    flag ends true although one submission failed. *)
Lemma pon_install_and_counterexample :
  _valid (self (ex_pon_state [Reply reply_failed; Reply reply_ok])) = true /\
  _installed (self (ex_pon_state [Reply reply_failed; Reply reply_ok])) = false /\
  _gem_ids (self (ex_pon_state [Reply reply_failed; Reply reply_ok]))
    = Some (GemDict [(1, [2001; 2002]); (2, [2101])]) /\
  length (sent (world (snd (pon_install (fun g => g)
                              (ex_pon_state [Reply reply_failed; Reply reply_ok])))))
    = 2%nat /\
  _installed (self (snd (pon_install (fun g => g)
                           (ex_pon_state [Reply reply_failed; Reply reply_ok]))))
    = true /\
  ok reply_failed && ok reply_ok = false /\
  _installed (self (snd (pon_install (fun g => g)
                           (ex_pon_state [Reply reply_failed; Reply reply_ok]))))
    <> (ok reply_failed && ok reply_ok).
Proof.
  repeat split; try (vm_compute; reflexivity).
  vm_compute. discriminate.
Qed.


(** In the list branch only names the pattern matches are collected. *)
Lemma matching_names_match p l :
  forall names, matching_names p l = Ok names ->
  forall n, n ∈ names -> exists s, n = Some s /\ p s = true.
Proof.
  induction l as [|entry l IH]; simpl; intros names Hnames n Hin.
  - injection Hnames as <-. apply elem_of_empty in Hin. destruct Hin.
  - destruct (py_contains "name" entry) as [has|e]; [|discriminate Hnames].
    destruct (matching_names p l) as [rest|e] eqn:Hrest.
    + destruct has.
      * destruct (py_getitem entry "name") as [[|s| |]|e];
          try discriminate Hnames.
        injection Hnames as <-. apply elem_of_union in Hin.
        destruct Hin as [Hin|Hin]; [|eauto].
        destruct (p s) eqn:Hp; [|apply elem_of_empty in Hin; destruct Hin].
        apply elem_of_singleton in Hin. subst n. eauto.
      * injection Hnames as <-. apply elem_of_union in Hin.
        destruct Hin as [Hin|Hin]; [apply elem_of_empty in Hin; destruct Hin|eauto].
    + destruct has; [|discriminate Hnames].
      destruct (py_getitem entry "name") as [[|s| |]|e0]; discriminate Hnames.
Qed.

(** C3: with the default pattern and a query answer that holds the single
    entry ["other-map"], which the pattern does not match, [remove_all]
    still sends a delete request naming that entry; the single-entry branch
    of [do_delete] never consults the pattern. *)
Theorem remove_all_single_entry_unfiltered :
  ex_re_compile EVC_MAP_NAME_REGEX_ALL = Ok (String.prefix "VOLTHA") /\
  String.prefix "VOLTHA" "other-map" = false /\
  remove_all ex_re_compile ex_set_iter
             (query_client (query_reply (entry_named "other-map")))
             EVC_MAP_NAME_REGEX_ALL empty_world
  = (Ok tt,
     {| evcs := ∅;
        sent := [Get get_xml;
                 EditConfig (_xml_header (Some "delete") +:+ "<name>other-map</name>"
                             +:+ _xml_trailer) None 30];
        logs := ["query"; "query-complete"; "removing"; "delete-complete"] |}).
Proof. repeat split; vm_compute; reflexivity. Qed.

(** The same answer as a list of entries is filtered: nothing is sent but
    the query. *)
Lemma remove_all_list_filtered :
  sent (snd (remove_all ex_re_compile ex_set_iter
               (query_client (query_reply (XList [entry_named "other-map"])))
               EVC_MAP_NAME_REGEX_ALL empty_world))
  = [Get get_xml].
Proof. vm_compute; reflexivity. Qed.

(** With two matching entries the delete document closes the wrapper after
    the first name the iteration visits: the second name is outside it,
    whichever of the two comes first. *)
Lemma remove_all_two_matches_document set_iter x y :
  set_iter {[ Some "VOLTHA-1-1"; Some "VOLTHA-1-2" ]} = [x; y] ->
  sent (snd (remove_all ex_re_compile set_iter
               (query_client
                  (query_reply (XList [entry_named "VOLTHA-1-1"; entry_named "VOLTHA-1-2"])))
               EVC_MAP_NAME_REGEX_ALL empty_world))
  = [Get get_xml;
     EditConfig ((((_xml_header (Some "delete")
                    +:+ "<name>" +:+ fmt_opt id x +:+ "</name>") +:+ _xml_trailer)
                  +:+ "<name>" +:+ fmt_opt id y +:+ "</name>") +:+ _xml_trailer)
                None 30].
Proof.
  intros Horder. unfold remove_all, do_delete.
  cbv [bind ret raise lift gets modify wlog addCallbacks submit]. simpl.
  replace ({[Some "VOLTHA-1-1"]} ∪ ({[Some "VOLTHA-1-2"]} ∪ ∅))
    with ({[Some "VOLTHA-1-1"; Some "VOLTHA-1-2"]} : gset (option string))
    by (vm_compute; reflexivity).
  rewrite Horder. vm_compute. reflexivity.
Qed.

Lemma ex_world_fresh id : fresh_id ex_world id.
Proof.
  intros r E n HE. unfold ex_world in HE. simpl in HE.
  apply lookup_singleton_Some in HE as [_ <-]. simpl.
  rewrite lookup_empty. discriminate.
Qed.

Lemma registration_invariant_witness :
  fresh_id ex_world 5 /\
  registration_inv
    (exec_ops (fun g => g) [OpInstall; OpDisable]
       (snd (EVCMap_init 5 (Some (ex_flow [] 7 None [10])) (Some 1%nat) true ex_world))) /\
  _valid (self (exec_ops (fun g => g) [OpInstall; OpDisable]
                  (snd (EVCMap_init 5 (Some (ex_flow [] 7 None [10])) (Some 1%nat) true
                          ex_world)))) = true /\
  exists r,
    _evc (self (exec_ops (fun g => g) [OpInstall; OpDisable]
                  (snd (EVCMap_init 5 (Some (ex_flow [] 7 None [10])) (Some 1%nat) true
                          ex_world)))) = Some r /\
    registered
      (world (exec_ops (fun g => g) [OpInstall; OpDisable]
                (snd (EVCMap_init 5 (Some (ex_flow [] 7 None [10])) (Some 1%nat) true
                        ex_world)))) r
      (self (exec_ops (fun g => g) [OpInstall; OpDisable]
               (snd (EVCMap_init 5 (Some (ex_flow [] 7 None [10])) (Some 1%nat) true
                       ex_world)))).
Proof.
  split; [apply ex_world_fresh|].
  destruct (registration_invariant (fun g => g) 5 (Some (ex_flow [] 7 None [10]))
              (Some 1%nat) true ex_world [OpInstall; OpDisable]
              (ex_world_fresh 5)) as (Hinv & Hreg & _).
  split; [exact Hinv|].
  assert (_valid (self (exec_ops (fun g => g) [OpInstall; OpDisable]
                          (snd (EVCMap_init 5 (Some (ex_flow [] 7 None [10]))
                                  (Some 1%nat) true ex_world)))) = true) as Hvalid
    by (vm_compute; reflexivity).
  split; [exact Hvalid | exact (Hreg Hvalid)].
Defined.

Lemma enable_disable_response_witness :
  (_enabled (self (ex_plain_state [OpInstall; OpDisable]
                     [Reply reply_ok; Reply reply_ok; Reply reply_failed])) = false /\
   _enabled (self (snd (enable
       (ex_plain_state [OpInstall; OpDisable]
          [Reply reply_ok; Reply reply_ok; Reply reply_failed]))))
     = ok reply_failed) /\
  (_enabled (self (ex_plain_state [OpInstall] [Reply reply_ok; Reply reply_failed]))
     = true /\
   _enabled (self (snd (disable
       (ex_plain_state [OpInstall] [Reply reply_ok; Reply reply_failed]))))
     = negb (ok reply_failed)).
Proof.
  split; (split; [vm_compute; reflexivity|]).
  - refine (proj1 (enable_disable_response
                     (ex_plain_state [OpInstall; OpDisable]
                        [Reply reply_ok; Reply reply_ok; Reply reply_failed])
                     (ex_flow [Reply reply_ok; Reply reply_ok; Reply reply_failed]
                              7 None [10])
                     reply_failed true _ _ _ _ _));
      vm_compute; reflexivity.
  - refine (proj1 (enable_disable_response
                     (ex_plain_state [OpInstall] [Reply reply_ok; Reply reply_failed])
                     (ex_flow [Reply reply_ok; Reply reply_failed] 7 None [10])
                     reply_failed false _ _ _ _ _));
      vm_compute; reflexivity.
Defined.

(** [delete] on an installed descriptor whose removal request fails in the
    transport: false is returned, nothing is raised, and the circuit no
    longer holds the descriptor. *)
Example delete_on_transport_failure :
  _installed (self (ex_plain_state [OpInstall]
                      [Reply reply_ok; Failure (OtherError "timeout")])) = true /\
  fst (delete (ex_plain_state [OpInstall]
                 [Reply reply_ok; Failure (OtherError "timeout")])) = Ok false /\
  (EVC.evc_maps <$>
     evcs (world (ex_plain_state [OpInstall]
                    [Reply reply_ok; Failure (OtherError "timeout")])) !! 1%nat)
    = Some {[ Some "VOLTHA-7-55" := 5%nat ]} /\
  (EVC.evc_maps <$>
     evcs (world (snd (delete (ex_plain_state [OpInstall]
                                 [Reply reply_ok; Failure (OtherError "timeout")]))))
       !! 1%nat)
    = Some ∅.
Proof. repeat split; vm_compute; reflexivity. Qed.

(** The scenario of a single pushed tag on the PON port 1029 with flow id
    55: the name, and the circuit left in symmetric, single-tagged mode. *)
Example decode_single_tag_scenario :
  _name (self (ex_pon_state [])) = Some "VOLTHA-1029-55" /\
  _valid (self (ex_pon_state [])) = true /\
  (EVC.switching_method <$> evcs (world (ex_pon_state [])) !! 1%nat)
    = Some EVC.SINGLE_TAGGED /\
  (EVC.men_to_uni_tag_manipulation <$> evcs (world (ex_pon_state [])) !! 1%nat)
    = Some EVC.SYMMETRIC.
Proof. repeat split; vm_compute; reflexivity. Qed.

(** ** Names *)

Lemma string_of_uint_digits d : all_digits (NilEmpty.string_of_uint d) = true.
Proof. induction d; simpl; auto. Qed.

Lemma fmt_Z_shape x :
  exists ds, ds <> EmptyString /\ all_digits ds = true /\
             (fmt_Z x = ds \/ fmt_Z x = String "-"%char ds).
Proof.
  assert (forall d, d <> Decimal.Nil ->
                    NilZero.string_of_uint d <> EmptyString /\
                    all_digits (NilZero.string_of_uint d) = true) as Huint.
  { intros d Hd. split.
    - destruct d; simpl; congruence.
    - destruct d; try congruence;
        match goal with |- all_digits (NilZero.string_of_uint ?u) = true =>
          exact (string_of_uint_digits u) end. }
  unfold fmt_Z. destruct x as [|p|p]; simpl.
  - exists "0". repeat split; auto; discriminate.
  - exists (NilZero.string_of_uint (Pos.to_uint p)).
    destruct (Huint _ (Unsigned.to_uint_nonnil p)). auto.
  - exists (NilZero.string_of_uint (Pos.to_uint p)).
    destruct (Huint _ (Unsigned.to_uint_nonnil p)). auto.
Qed.

Lemma fmt_Z_inj x y : fmt_Z x = fmt_Z y -> x = y.
Proof.
  unfold fmt_Z. intros H. apply DecimalZ.to_int_inj.
  assert (forall z, NilZero.int_of_string (NilZero.string_of_int (Z.to_int z))
                    = Some (Z.to_int z)) as Hisi.
  { intros z. destruct z as [|p|p]; [reflexivity| |];
      apply NilZero.isi; simpl; intros [=Hp];
      exact (Unsigned.to_uint_nonnil p Hp). }
  pose proof (Hisi x) as Hx. rewrite H, Hisi in Hx. congruence.
Qed.

(** Two digit strings followed by a separator that is not a digit: equal
    wholes have equal parts. *)
Lemma digits_sep_inj sep :
  is_digit sep = false ->
  forall x x' y y',
    all_digits x = true -> all_digits x' = true ->
    x +:+ String sep y = x' +:+ String sep y' -> x = x' /\ y = y'.
Proof.
  intros Hsep. induction x as [|c x IH]; intros [|c' x'] y y' Hx Hx' Heq;
    simpl in *.
  - injection Heq as ->. auto.
  - injection Heq as <- _. apply andb_prop in Hx' as [Hc _]. congruence.
  - injection Heq as -> _. apply andb_prop in Hx as [Hc _]. congruence.
  - injection Heq as <- Heq. apply andb_prop in Hx as [_ Hx].
    apply andb_prop in Hx' as [_ Hx'].
    destruct (IH x' y y' Hx Hx' Heq) as [-> ->]. auto.
Qed.

Lemma fmt_Z_sep_inj sep a a' y y' :
  is_digit sep = false ->
  fmt_Z a +:+ String sep y = fmt_Z a' +:+ String sep y' -> a = a' /\ y = y'.
Proof.
  intros Hsep Heq.
  destruct (fmt_Z_shape a) as (ds & Hne & Hds & Ha).
  destruct (fmt_Z_shape a') as (ds' & Hne' & Hds' & Ha').
  assert (fmt_Z a = fmt_Z a' /\ y = y') as [H1 H2].
  { destruct Ha as [Ha|Ha], Ha' as [Ha'|Ha']; rewrite Ha, Ha' in Heq |- *.
    - destruct (digits_sep_inj sep Hsep _ _ _ _ Hds Hds' Heq) as [-> ->]. auto.
    - exfalso. destruct ds as [|c ds]; [congruence|].
      simpl in Heq. injection Heq as -> _. simpl in Hds. discriminate Hds.
    - exfalso. destruct ds' as [|c ds']; [congruence|].
      simpl in Heq. injection Heq as <- _. simpl in Hds'. discriminate Hds'.
    - simpl in Heq. injection Heq as Heq.
      destruct (digits_sep_inj sep Hsep _ _ _ _ Hds Hds' Heq) as [-> ->]. auto. }
  split; [apply fmt_Z_inj, H1 | exact H2].
Qed.

Lemma append_cancel_l p x y : p +:+ x = p +:+ y -> x = y.
Proof. induction p as [|c p IH]; simpl; intros H; [exact H|]. injection H as H. auto. Qed.

Lemma append_assoc (a b c : string) : (a +:+ b) +:+ c = a +:+ (b +:+ c).
Proof.
  induction a as [|x a IH]; [reflexivity|].
  change (String x ((a +:+ b) +:+ c) = String x (a +:+ (b +:+ c))).
  rewrite IH. reflexivity.
Qed.

(** X1: the name of a descriptor determines the ingress port and the flow
    id it was made from: two names are equal only for equal pairs. *)
Theorem EVC_MAP_NAME_FORMAT_inj in_port flow_id in_port' flow_id' :
  EVC_MAP_NAME_FORMAT in_port flow_id = EVC_MAP_NAME_FORMAT in_port' flow_id' <->
  in_port = in_port' /\ flow_id = flow_id'.
Proof.
  split; [|intros [-> ->]; reflexivity].
  unfold EVC_MAP_NAME_FORMAT. intros H. apply append_cancel_l in H.
  apply (fmt_Z_sep_inj "-"%char) in H; [|reflexivity].
  destruct H as [-> H]. apply fmt_Z_inj in H. auto.
Qed.

(** ** What the lifecycle leaves alone *)

Lemma pon_install_onu_decoded gvid u s :
  decoded_part (self (snd (pon_install_onu gvid u s))) = decoded_part (self s).
Proof. unfold pon_install_onu. run_monad. simpl. exec; reflexivity. Qed.

Lemma for_each_decoded {A} (body : A -> M St unit) l :
  (forall x s, decoded_part (self (snd (body x s))) = decoded_part (self s)) ->
  forall s, decoded_part (self (snd (for_each l body s))) = decoded_part (self s).
Proof.
  intros Hbody. induction l as [|x l IH]; intros s; simpl; [reflexivity|].
  unfold bind. specialize (Hbody x s).
  destruct (body x s) as [[[]|e] s1]; simpl in *.
  - rewrite IH. exact Hbody.
  - exact Hbody.
Qed.

Lemma pon_install_decoded gvid s :
  decoded_part (self (snd (pon_install gvid s))) = decoded_part (self s).
Proof.
  unfold pon_install. run_monad. simpl.
  destruct (_valid (self s) && negb (_installed (self s))); simpl; [|reflexivity].
  destruct (_gem_ids (self s)) as [[d|]|] eqn:Hg; simpl; try reflexivity.
  pose proof (for_each_decoded (pon_install_onu gvid) d (pon_install_onu_decoded gvid)
                (on_self (set_installed true) s)) as H.
  destruct (for_each d (pon_install_onu gvid) _) as [[[]|e] s1]; simpl in *;
    rewrite H; reflexivity.
Qed.

Lemma install_decoded gvid s :
  decoded_part (self (snd (install gvid s))) = decoded_part (self s).
Proof.
  unfold install. run_monad. simpl.
  destruct (_gem_ids (self s)) as [g|] eqn:Hg; simpl.
  - pose proof (pon_install_decoded gvid s) as H.
    destruct (pon_install gvid s) as [[b|e] s1]; simpl in *; exact H.
  - exec; reflexivity.
Qed.

Lemma remove_decoded s : decoded_part (self (snd (remove s))) = decoded_part (self s).
Proof. unfold remove. run_monad. simpl. exec; reflexivity. Qed.

Lemma enable_decoded s : decoded_part (self (snd (enable s))) = decoded_part (self s).
Proof. unfold enable. run_monad. simpl. exec; reflexivity. Qed.

Lemma disable_decoded s : decoded_part (self (snd (disable s))) = decoded_part (self s).
Proof. unfold disable. run_monad. simpl. exec; reflexivity. Qed.

Lemma delete_decoded s : decoded_part (self (snd (delete s))) = decoded_part (self s).
Proof.
  rewrite delete_unfold. simpl.
  transitivity (decoded_part (self (snd (remove (on_self (set_valid false) s)))));
    [reflexivity|].
  rewrite remove_decoded. reflexivity.
Qed.

Lemma run_op_decoded gvid o s :
  decoded_part (self (snd (run_op gvid o s))) = decoded_part (self s).
Proof.
  destruct o; simpl;
    auto using install_decoded, pon_install_decoded, remove_decoded,
               enable_decoded, disable_decoded, delete_decoded.
Qed.

Lemma exec_ops_decoded gvid ops :
  forall s, decoded_part (self (exec_ops gvid ops s)) = decoded_part (self s).
Proof.
  unfold exec_ops. induction ops as [|o ops IH]; intros s; simpl; [reflexivity|].
  rewrite IH. apply run_op_decoded.
Qed.

(** X2: no lifecycle operation, [delete] included, changes what the
    constructor decoded: name, direction, port, circuit name, tags, channel
    table, ACL fields.  Every operation but [delete] also keeps [valid], the
    flow and circuit references and all circuits as they are. *)
Theorem lifecycle_frame gvid ops s :
  decoded_part (self (exec_ops gvid ops s)) = decoded_part (self s) /\
  (forall o, o <> OpDelete ->
             fixed_part (snd (run_op gvid o s)) = fixed_part s).
Proof.
  split; [apply exec_ops_decoded | intros o; apply run_op_fixed].
Qed.

(** ** The constructor: rejections *)

(** X3: without a circuit the descriptor is invalid, with the reason in
    its status and the name already computed; no circuit is touched and
    nothing is sent. *)
Theorem decode_without_circuit id f ing w res s :
  EVCMap_init id (Some f) None ing w = (res, s) ->
  _valid (self s) = false /\
  _status_message (self s) = Some "Can only create EVC-MAP if EVC supplied" /\
  _name (self s)
    = Some (EVC_MAP_NAME_FORMAT (FlowEntry.in_port f) (FlowEntry.flow_id f)) /\
  _evc (self s) = None /\
  evcs (world s) = evcs w /\
  sent (world s) = sent w.
Proof.
  intros Hinit.
  replace s with (snd (EVCMap_init id (Some f) None ing w))
    by (rewrite Hinit; reflexivity).
  repeat split.
Qed.

Lemma decode_without_circuit_witness :
  _valid (self (snd (EVCMap_init 5 (Some ex_double_flow) None true ex_world))) = false /\
  _status_message (self (snd (EVCMap_init 5 (Some ex_double_flow) None true ex_world)))
    = Some "Can only create EVC-MAP if EVC supplied".
Proof.
  destruct (decode_without_circuit 5 ex_double_flow true ex_world
              (fst (EVCMap_init 5 (Some ex_double_flow) None true ex_world))
              (snd (EVCMap_init 5 (Some ex_double_flow) None true ex_world))
              (surjective_pairing _)) as (H1 & H2 & _).
  split; [exact H1 | exact H2].
Defined.

(** X4: a flow whose ingress port is neither a PON nor a UNI port gives an
    invalid descriptor with the reason in its status; the circuit is left
    exactly as it was (its CE-VLAN preservation too) and nothing is sent. *)
Theorem decode_unsupported_port id f r ing w E res s :
  evcs w !! r = Some E ->
  is_pon_port (FlowEntry.handler f) (FlowEntry.in_port f) = Ok false ->
  is_uni_port (FlowEntry.handler f) (FlowEntry.in_port f) = Ok false ->
  EVCMap_init id (Some f) (Some r) ing w = (res, s) ->
  _valid (self s) = false /\
  _status_message (self s)
    = Some "EVC-MAPS without UNI or PON ports are not supported" /\
  _evc (self s) = None /\
  _gem_ids (self s) = None /\
  evcs (world s) = evcs w /\
  sent (world s) = sent w.
Proof.
  intros HE Hpon Huni Hinit.
  replace s with (snd (EVCMap_init id (Some f) (Some r) ing w))
    by (rewrite Hinit; reflexivity).
  clear Hinit. unfold EVCMap_init, init_body, _decode. run_monad. simpl.
  rewrite HE. simpl. rewrite Hpon, Huni. simpl. repeat split.
Qed.

Lemma decode_unsupported_port_witness :
  _valid (self (snd (EVCMap_init 5 (Some (ex_flow [] 3 None [10])) (Some 1%nat)
                       true ex_world))) = false /\
  _status_message (self (snd (EVCMap_init 5 (Some (ex_flow [] 3 None [10]))
                                (Some 1%nat) true ex_world)))
    = Some "EVC-MAPS without UNI or PON ports are not supported".
Proof.
  destruct (decode_unsupported_port 5 (ex_flow [] 3 None [10]) 1%nat true ex_world
              ex_evc
              (fst (EVCMap_init 5 (Some (ex_flow [] 3 None [10])) (Some 1%nat)
                      true ex_world))
              (snd (EVCMap_init 5 (Some (ex_flow [] 3 None [10])) (Some 1%nat)
                      true ex_world)))
    as (H1 & H2 & _).
  - vm_compute; reflexivity.
  - vm_compute; reflexivity.
  - vm_compute; reflexivity.
  - apply surjective_pairing.
  - split; [exact H1 | exact H2].
Defined.

(** ** The constructor: what an accepted descriptor holds *)

(** X5: an accepted descriptor starts not installed, enabled and matching
    untagged traffic; it keeps the flow and the circuit it was given, is
    named after the flow's ingress port and id, carries the circuit's name,
    the port's name, the flow's inner VLAN id and ether-type, and has no
    status yet.  The constructor sends nothing to the device. *)
Theorem constructed_descriptor id flow evc ing w res s :
  EVCMap_init id flow evc ing w = (res, s) ->
  _valid (self s) = true ->
  exists f r E,
    flow = Some f /\ evc = Some r /\ evcs w !! r = Some E /\
    _flow (self s) = Some f /\ _evc (self s) = Some r /\
    _name (self s)
      = Some (EVC_MAP_NAME_FORMAT (FlowEntry.in_port f) (FlowEntry.flow_id f)) /\
    _evc_connection (self s) = EvcConnection.EVC /\
    _evc_name (self s) = Some (EVC.name E) /\
    get_port_name (FlowEntry.handler f) (FlowEntry.in_port f)
      = Ok (_uni_port (self s)) /\
    _c_tag (self s) = FlowEntry.inner_vid f /\
    _eth_type (self s) = FlowEntry.eth_type f /\
    _is_ingress_map (self s) = ing /\
    _installed (self s) = false /\ _enabled (self s) = true /\
    _match_untagged (self s) = true /\ _status_message (self s) = None /\
    sent (world s) = sent w.
Proof.
  intros Hinit.
  replace s with (snd (EVCMap_init id flow evc ing w))
    by (rewrite Hinit; reflexivity).
  clear Hinit. unfold EVCMap_init, init_body, _decode. run_monad. simpl.
  exec; intros Hvalid; try discriminate Hvalid;
    (eexists _, _, _; repeat split; eauto).
Qed.

Lemma constructed_descriptor_witness :
  exists f r E,
    Some (ex_flow [] 1029 None [10]) = Some f /\ Some 1%nat = Some r /\
    evcs ex_world !! r = Some E /\
    _flow (self (ex_pon_state [])) = Some f /\ _evc (self (ex_pon_state [])) = Some r /\
    _name (self (ex_pon_state []))
      = Some (EVC_MAP_NAME_FORMAT (FlowEntry.in_port f) (FlowEntry.flow_id f)) /\
    _evc_connection (self (ex_pon_state [])) = EvcConnection.EVC /\
    _evc_name (self (ex_pon_state [])) = Some (EVC.name E) /\
    get_port_name (FlowEntry.handler f) (FlowEntry.in_port f)
      = Ok (_uni_port (self (ex_pon_state []))) /\
    _c_tag (self (ex_pon_state [])) = FlowEntry.inner_vid f /\
    _eth_type (self (ex_pon_state [])) = FlowEntry.eth_type f /\
    _is_ingress_map (self (ex_pon_state [])) = true /\
    _installed (self (ex_pon_state [])) = false /\
    _enabled (self (ex_pon_state [])) = true /\
    _match_untagged (self (ex_pon_state [])) = true /\
    _status_message (self (ex_pon_state [])) = None /\
    sent (world (ex_pon_state [])) = sent ex_world.
Proof.
  apply (constructed_descriptor 5 (Some (ex_flow [] 1029 None [10])) (Some 1%nat)
           true ex_world
           (fst (EVCMap_init 5 (Some (ex_flow [] 1029 None [10])) (Some 1%nat)
                   true ex_world))
           (ex_pon_state [])).
  - apply surjective_pairing.
  - vm_compute; reflexivity.
Defined.

Lemma opt_eqb_false x v : opt_eqb x v = false -> x <> Some v.
Proof.
  destruct x as [a|]; simpl; [|discriminate].
  intros H [= ->]. rewrite Z.eqb_refl in H. discriminate H.
Qed.

(** X6: a channel table exists only on an ingress descriptor whose port is
    a PON port.  It is the port's table unless the flow needs ACL support
    with an ether-type other than EAPOL, in which case it is the empty
    set. *)
Theorem decode_channel_table id flow evc ing w :
  (_gem_ids (self (snd (EVCMap_init id flow evc ing w))) <> None ->
   ing = true /\
   exists f, flow = Some f /\
             is_pon_port (FlowEntry.handler f) (FlowEntry.in_port f) = Ok true) /\
  (forall d,
      _gem_ids (self (snd (EVCMap_init id flow evc ing w))) = Some (GemDict d) ->
      _needs_acl_support (self (snd (EVCMap_init id flow evc ing w))) = false \/
      _eth_type (self (snd (EVCMap_init id flow evc ing w)))
        = Some FlowEntry.EtherType.EAPOL) /\
  (_gem_ids (self (snd (EVCMap_init id flow evc ing w))) = Some GemSet ->
   _needs_acl_support (self (snd (EVCMap_init id flow evc ing w))) = true /\
   _eth_type (self (snd (EVCMap_init id flow evc ing w)))
     <> Some FlowEntry.EtherType.EAPOL).
Proof.
  unfold EVCMap_init, init_body, _decode. run_monad. simpl.
  exec; (split; [|split]); intros; try discriminate;
    unfold _needs_acl_support in *; simpl in *;
    try match goal with
      | H : ?x <> ?x |- _ => destruct (H eq_refl)
      | Hb : ?i && ?a = true |- ?i = true /\ _ =>
          apply andb_prop in Hb as [-> ->];
          split; [reflexivity | eexists; split; [reflexivity | assumption]]
      | Hb : _ && negb (opt_eqb _ _) = false |- _ \/ _ =>
          apply andb_false_iff in Hb as [Hb|Hb];
          [ left; exact Hb
          | right; apply negb_false_iff in Hb; apply opt_eqb_true in Hb; exact Hb ]
      | Hb : _ && negb (opt_eqb _ _) = true |- _ /\ _ =>
          apply andb_prop in Hb as [Ha Hb];
          split; [ exact Ha
                 | apply negb_true_iff in Hb; apply opt_eqb_false in Hb; exact Hb ]
      end.
Qed.

(** ** The constructor: tag handling *)

(** X7: on a PON or UNI port whose classification, name and channel
    table lookups answer, a flow that pushes one tag, on a circuit whose
    flow entry pops one, puts the circuit in symmetric, single-tagged mode
    with the flow's first pushed protocol identifier, and the descriptor is
    valid and in the circuit's collection under its name.  When the flow
    gives no protocol identifier the decoder fails after it has set the two
    modes: the descriptor is invalid and not in the collection. *)
Theorem decode_single_tag id f r ing w E fe pon uni port res s :
  evcs w !! r = Some E ->
  EVC.flow_entry E = Some fe ->
  FlowEntry.pop_vlan fe = 1 ->
  length (FlowEntry.push_vlan_id f) = 1%nat ->
  is_pon_port (FlowEntry.handler f) (FlowEntry.in_port f) = Ok pon ->
  is_uni_port (FlowEntry.handler f) (FlowEntry.in_port f) = Ok uni ->
  pon || uni = true ->
  get_port_name (FlowEntry.handler f) (FlowEntry.in_port f) = Ok port ->
  (ing && pon = true -> channel_table_answers f) ->
  EVCMap_init id (Some f) (Some r) ing w = (res, s) ->
  exists E',
    evcs (world s) !! r = Some E' /\
    EVC.ce_vlan_preservation E' = false /\
    EVC.men_to_uni_tag_manipulation E' = EVC.SYMMETRIC /\
    EVC.switching_method E' = EVC.SINGLE_TAGGED /\
    match FlowEntry.push_vlan_tpid f with
    | tpid :: _ =>
        _valid (self s) = true /\
        EVC.stpid E' = Some tpid /\
        EVC.evc_maps E' = <[_name (self s) := id]> (EVC.evc_maps E)
    | [] =>
        _valid (self s) = false /\
        EVC.stpid E' = EVC.stpid E /\
        EVC.evc_maps E' = EVC.evc_maps E
    end.
Proof.
  intros HE Hfe Hpop Hlen Hpon Huni Hor Hport Hch Hinit.
  replace s with (snd (EVCMap_init id (Some f) (Some r) ing w))
    by (rewrite Hinit; reflexivity).
  clear Hinit. unfold EVCMap_init, init_body, _decode. run_monad. simpl.
  rewrite HE. simpl. rewrite Hpon, Huni. simpl. rewrite Hor, Hport. simpl.
  rewrite Hlen. simpl.
  unfold channel_table_answers in Hch.
  destruct (ing && pon) eqn:Hip; simpl.
  - specialize (Hch eq_refl).
    destruct (get_southbound_port _ _) as [[pp|]|]; [| |contradiction]; simpl.
    + exec;
        try (match goal with
             | H : gem_ids pp ?a = Raise _ |- _ =>
                 destruct (Hch a) as [? ?]; congruence
             end);
        found_circuit HE.
    + exec; found_circuit HE.
  - exec; found_circuit HE.
Qed.

Lemma decode_single_tag_witness :
  exists E',
    evcs (world (ex_pon_state [])) !! 1%nat = Some E' /\
    EVC.ce_vlan_preservation E' = false /\
    EVC.men_to_uni_tag_manipulation E' = EVC.SYMMETRIC /\
    EVC.switching_method E' = EVC.SINGLE_TAGGED /\
    _valid (self (ex_pon_state [])) = true /\
    EVC.stpid E' = Some 0x8100 /\
    EVC.evc_maps E' = <[_name (self (ex_pon_state [])) := 5%nat]> (EVC.evc_maps ex_evc).
Proof.
  refine (decode_single_tag 5 (ex_flow [] 1029 None [10]) 1%nat true ex_world
            ex_evc ex_evc_flow true false (Some "port-1029")
            (fst (EVCMap_init 5 (Some (ex_flow [] 1029 None [10])) (Some 1%nat)
                    true ex_world))
            (ex_pon_state []) _ _ _ _ _ _ _ _ _ _).
  - vm_compute; reflexivity.
  - vm_compute; reflexivity.
  - vm_compute; reflexivity.
  - vm_compute; reflexivity.
  - vm_compute; reflexivity.
  - vm_compute; reflexivity.
  - vm_compute; reflexivity.
  - vm_compute; reflexivity.
  - intros _. unfold channel_table_answers. simpl. intros acl. eexists. reflexivity.
  - apply surjective_pairing.
Defined.

(** A path that needs one or two pushed tags and one pop is excluded by
    the hypothesis on the combination. *)
Ltac other_combination Hcombo :=
  exfalso;
  repeat match goal with
    | H : Nat.eqb _ _ = true |- _ => apply Nat.eqb_eq in H
    | H : Z.eqb _ _ = true |- _ => apply Z.eqb_eq in H
    end;
  destruct Hcombo as [[? ?]|(? & Hfe0 & ?)];
  [ contradiction
  | first [ discriminate Hfe0
          | injection Hfe0 as <-; contradiction
          | congruence ] ].

(** X8: a flow that pushes neither one nor two tags, or a circuit whose
    flow entry pops other than one tag, is accepted without tag
    inference: the descriptor is valid and in the circuit's collection,
    the circuit's CE-VLAN preservation is off, and its manipulation mode,
    switching method and protocol identifier are as they were. *)
Theorem decode_without_tag_inference id f r ing w E pon uni port res s :
  evcs w !! r = Some E ->
  (length (FlowEntry.push_vlan_id f) <> 1%nat /\
   length (FlowEntry.push_vlan_id f) <> 2%nat) \/
  (exists fe, EVC.flow_entry E = Some fe /\ FlowEntry.pop_vlan fe <> 1) ->
  is_pon_port (FlowEntry.handler f) (FlowEntry.in_port f) = Ok pon ->
  is_uni_port (FlowEntry.handler f) (FlowEntry.in_port f) = Ok uni ->
  pon || uni = true ->
  get_port_name (FlowEntry.handler f) (FlowEntry.in_port f) = Ok port ->
  (ing && pon = true -> channel_table_answers f) ->
  EVCMap_init id (Some f) (Some r) ing w = (res, s) ->
  _valid (self s) = true /\
  exists E',
    evcs (world s) !! r = Some E' /\
    EVC.ce_vlan_preservation E' = false /\
    EVC.men_to_uni_tag_manipulation E' = EVC.men_to_uni_tag_manipulation E /\
    EVC.switching_method E' = EVC.switching_method E /\
    EVC.stpid E' = EVC.stpid E /\
    EVC.evc_maps E' = <[_name (self s) := id]> (EVC.evc_maps E).
Proof.
  intros HE Hcombo Hpon Huni Hor Hport Hch Hinit.
  replace s with (snd (EVCMap_init id (Some f) (Some r) ing w))
    by (rewrite Hinit; reflexivity).
  clear Hinit. unfold EVCMap_init, init_body, _decode. run_monad. simpl.
  rewrite HE. simpl. rewrite Hpon, Huni. simpl. rewrite Hor, Hport. simpl.
  unfold channel_table_answers in Hch.
  destruct (ing && pon) eqn:Hip; simpl.
  - specialize (Hch eq_refl).
    destruct (get_southbound_port _ _) as [[pp|]|]; [| |contradiction]; simpl.
    + exec;
        try (match goal with
             | H : gem_ids pp ?a = Raise _ |- _ =>
                 destruct (Hch a) as [? ?]; congruence
             end);
        first [ solve [split; [reflexivity | found_circuit HE]] | other_combination Hcombo ].
    + exec;
        first [ solve [split; [reflexivity | found_circuit HE]] | other_combination Hcombo ].
  - exec;
      first [ solve [split; [reflexivity | found_circuit HE]] | other_combination Hcombo ].
Qed.

Lemma decode_without_tag_inference_witness :
  _valid (self (snd (EVCMap_init 5 (Some (ex_flow [] 7 None [])) (Some 1%nat) true
                       ex_world))) = true /\
  exists E',
    evcs (world (snd (EVCMap_init 5 (Some (ex_flow [] 7 None [])) (Some 1%nat) true
                        ex_world))) !! 1%nat = Some E' /\
    EVC.ce_vlan_preservation E' = false /\
    EVC.men_to_uni_tag_manipulation E' = EVC.men_to_uni_tag_manipulation ex_evc /\
    EVC.switching_method E' = EVC.switching_method ex_evc /\
    EVC.stpid E' = EVC.stpid ex_evc /\
    EVC.evc_maps E'
      = <[_name (self (snd (EVCMap_init 5 (Some (ex_flow [] 7 None [])) (Some 1%nat)
                              true ex_world))) := 5%nat]> (EVC.evc_maps ex_evc).
Proof.
  refine (decode_without_tag_inference 5 (ex_flow [] 7 None []) 1%nat true ex_world
            ex_evc false true (Some "port-7")
            (fst (EVCMap_init 5 (Some (ex_flow [] 7 None [])) (Some 1%nat) true
                    ex_world))
            (snd (EVCMap_init 5 (Some (ex_flow [] 7 None [])) (Some 1%nat) true
                    ex_world)) _ _ _ _ _ _ _ _).
  - vm_compute; reflexivity.
  - left. split; discriminate.
  - vm_compute; reflexivity.
  - vm_compute; reflexivity.
  - vm_compute; reflexivity.
  - vm_compute; reflexivity.
  - intros H. discriminate H.
  - apply surjective_pairing.
Defined.

(** ** Install and remove without a channel table *)

(** X9: [install] of a valid, not installed descriptor without ACL needs
    and without channel table submits its document once.  A reply sets
    [installed] to the reply's success and the status to the empty string
    or to the reply's error; a failure of the submission is raised again
    and leaves [installed] and the status as they were. *)
Theorem install_submission gvid s f doc out :
  _gem_ids (self s) = None ->
  _valid (self s) = true ->
  _installed (self s) = false ->
  _needs_acl_support (self s) = false ->
  _flow (self s) = Some f ->
  install_xml (self s) = Ok doc ->
  edit_config (netconf_client (FlowEntry.handler f)) (sent (world s)) doc None 30
    = out ->
  sent (world (snd (install gvid s))) = (sent (world s) ++ [EditConfig doc None 30])%list /\
  match out with
  | Reply rep =>
      fst (install gvid s) = Ok (ok rep) /\
      _installed (self (snd (install gvid s))) = ok rep /\
      _status_message (self (snd (install gvid s)))
        = (if ok rep then Some EmptyString else error rep)
  | Failure e =>
      fst (install gvid s) = Raise e /\
      _installed (self (snd (install gvid s))) = false /\
      _status_message (self (snd (install gvid s))) = _status_message (self s)
  end.
Proof.
  intros Hgem Hvalid Hinst Hacl Hflow Hdoc Hout.
  unfold install. run_monad. rewrite Hgem, Hvalid, Hinst. simpl.
  rewrite Hdoc. simpl. rewrite Hacl. simpl. rewrite Hflow. simpl.
  rewrite Hout. destruct out as [rep|e]; simpl.
  - destruct (ok rep); simpl; rewrite ?Hvalid; auto.
  - rewrite Hinst. auto.
Qed.

(** X10: [remove] of an installed descriptor without ACL needs submits the
    remove document once, with the default operation "remove".  A reply
    sets [installed] to the negation of its success, which is also the
    result; a failure of the submission is raised again and leaves the
    descriptor installed. *)
Theorem remove_submission s f out :
  _installed (self s) = true ->
  _needs_acl_support (self s) = false ->
  _flow (self s) = Some f ->
  edit_config (netconf_client (FlowEntry.handler f)) (sent (world s))
    (remove_xml (self s)) (Some "remove") 30 = out ->
  sent (world (snd (remove s)))
    = (sent (world s) ++ [EditConfig (remove_xml (self s)) (Some "remove") 30])%list /\
  match out with
  | Reply rep =>
      fst (remove s) = Ok (negb (ok rep)) /\
      _installed (self (snd (remove s))) = negb (ok rep) /\
      _status_message (self (snd (remove s)))
        = (if ok rep then Some EmptyString else error rep)
  | Failure e =>
      fst (remove s) = Raise e /\
      _installed (self (snd (remove s))) = true /\
      _status_message (self (snd (remove s))) = _status_message (self s)
  end.
Proof.
  intros Hinst Hacl Hflow Hout.
  unfold remove. run_monad. rewrite Hinst. simpl.
  rewrite Hacl. simpl. rewrite Hflow. simpl.
  rewrite Hout. destruct out as [rep|e]; simpl.
  - destruct (ok rep); simpl; auto.
  - rewrite Hinst. auto.
Qed.

Lemma install_submission_witness :
  _valid (self (ex_plain_state [] [Failure (OtherError "timeout")])) = true /\
  _installed (self (ex_plain_state [] [Failure (OtherError "timeout")])) = false /\
  fst (install (fun g => g) (ex_plain_state [] [Failure (OtherError "timeout")]))
    = Raise (OtherError "timeout") /\
  _installed (self (snd (install (fun g => g)
                           (ex_plain_state [] [Failure (OtherError "timeout")]))))
    = false.
Proof.
  split; [vm_compute; reflexivity|]. split; [vm_compute; reflexivity|].
  destruct (install_xml (self (ex_plain_state [] [Failure (OtherError "timeout")])))
    as [doc|e] eqn:Hdoc; [|vm_compute in Hdoc; discriminate Hdoc].
  assert (H := install_submission (fun g => g)
                 (ex_plain_state [] [Failure (OtherError "timeout")])
                 (ex_flow [Failure (OtherError "timeout")] 7 None [10])
                 doc (Failure (OtherError "timeout"))).
  simpl in H. destruct H as (_ & Hr & Hi & _);
    try (vm_compute; reflexivity); [exact Hdoc|].
  split; assumption.
Defined.

Lemma remove_submission_witness :
  _installed (self (ex_plain_state [OpInstall] [Reply reply_ok; Reply reply_failed]))
    = true /\
  fst (remove (ex_plain_state [OpInstall] [Reply reply_ok; Reply reply_failed]))
    = Ok true /\
  _status_message
    (self (snd (remove (ex_plain_state [OpInstall] [Reply reply_ok; Reply reply_failed]))))
    = Some "rpc-error".
Proof.
  split; [vm_compute; reflexivity|].
  assert (H := remove_submission
                 (ex_plain_state [OpInstall] [Reply reply_ok; Reply reply_failed])
                 (ex_flow [Reply reply_ok; Reply reply_failed] 7 None [10])
                 (Reply reply_failed)).
  simpl in H. destruct H as (_ & Hr & _ & Hm); try (vm_compute; reflexivity).
  split; assumption.
Defined.

(** ** After [delete] *)

Lemma detached_remove s :
  _flow (self s) = None ->
  sent (world (snd (remove s))) = sent (world s) /\
  evcs (world (snd (remove s))) = evcs (world s) /\
  (forall b, fst (remove s) = Ok b -> b = false).
Proof.
  intros Hflow. unfold remove. run_monad. simpl.
  destruct (_installed (self s)) eqn:Hinst; simpl.
  - destruct (_needs_acl_support (self s)); simpl.
    + repeat split. intros b [= <-]. reflexivity.
    + rewrite Hflow. simpl. repeat split. intros b H. discriminate H.
  - rewrite Hinst. repeat split. intros b [= <-]. reflexivity.
Qed.

Lemma detached_run_op gvid o s :
  _flow (self s) = None -> _valid (self s) = false ->
  sent (world (snd (run_op gvid o s))) = sent (world s) /\
  _flow (self (snd (run_op gvid o s))) = None /\
  _valid (self (snd (run_op gvid o s))) = false.
Proof.
  intros Hflow Hvalid. destruct o; simpl.
  - unfold install, pon_install. run_monad. simpl.
    destruct (_gem_ids (self s)); simpl; rewrite ?Hvalid; simpl;
      rewrite ?Hvalid; auto.
  - unfold pon_install. run_monad. simpl. rewrite Hvalid. simpl. auto.
  - destruct (detached_remove s Hflow) as (Hs & _ & _).
    pose proof (remove_fixed s) as Hfix. unfold fixed_part in Hfix.
    injection Hfix as _ _ _ _ Hv _ Hf _ _ _ _ _ _ _.
    rewrite Hs, Hf, Hv. auto.
  - unfold enable. run_monad. simpl.
    destruct (_installed (self s) && negb (_enabled (self s))); simpl; [|auto].
    destruct (_needs_acl_support (self s)); simpl; [auto|].
    rewrite Hflow. simpl. auto.
  - unfold disable. run_monad. simpl.
    destruct (_installed (self s) && _enabled (self s)); simpl; [|auto].
    destruct (_needs_acl_support (self s)); simpl; [auto|].
    rewrite Hflow. simpl. auto.
  - split; [|split; [|apply delete_clears_valid]].
    + rewrite delete_unfold. simpl.
      destruct (detached_remove (on_self (set_valid false) s) Hflow) as (Hs & _ & _).
      simpl in Hs.
      destruct (_evc (self (snd (remove (on_self (set_valid false) s))))); exact Hs.
    + rewrite delete_unfold. reflexivity.
Qed.

Lemma detached_exec_ops gvid ops :
  forall s, _flow (self s) = None -> _valid (self s) = false ->
            sent (world (exec_ops gvid ops s)) = sent (world s).
Proof.
  unfold exec_ops. induction ops as [|o ops IH]; intros s Hflow Hvalid; simpl.
  - reflexivity.
  - destruct (detached_run_op gvid o s Hflow Hvalid) as (Hs & Hf & Hv).
    rewrite IH by assumption. exact Hs.
Qed.

(** X11: once [delete] has run, no sequence of lifecycle operations sends
    anything to the device: the descriptor has no flow and is invalid, and
    every operation either skips its request or fails before it. *)
Theorem nothing_sent_after_delete gvid ops s :
  sent (world (exec_ops gvid ops (snd (delete s)))) = sent (world (snd (delete s))).
Proof.
  apply detached_exec_ops.
  - rewrite delete_unfold. reflexivity.
  - apply delete_clears_valid.
Qed.

(** X12: a second [delete] returns false, sends nothing and leaves every
    circuit as the first one left it. *)
Theorem delete_twice s :
  fst (delete (snd (delete s))) = Ok false /\
  sent (world (snd (delete (snd (delete s))))) = sent (world (snd (delete s))) /\
  evcs (world (snd (delete (snd (delete s))))) = evcs (world (snd (delete s))).
Proof.
  assert (_flow (self (snd (delete s))) = None) as Hflow
    by (rewrite delete_unfold; reflexivity).
  assert (_evc (self (snd (delete s))) = None) as Hevc
    by (rewrite delete_unfold; reflexivity).
  generalize dependent (snd (delete s)). intros s1 Hflow Hevc.
  rewrite delete_unfold. simpl.
  destruct (detached_remove (on_self (set_valid false) s1) Hflow) as (Hs & He & Hb).
  pose proof (remove_fixed (on_self (set_valid false) s1)) as Hfix.
  unfold fixed_part in Hfix. injection Hfix as _ _ _ _ _ Hev _ _ _ _ _ _ _ _.
  simpl in Hev. rewrite Hev, Hevc. simpl in Hs, He. repeat split; auto.
  destruct (fst (remove (on_self (set_valid false) s1))) as [b|e] eqn:Hr;
    [|reflexivity].
  rewrite (Hb b eq_refl). reflexivity.
Qed.

(** ** The ACL placeholder *)

Lemma acl_remove s :
  _needs_acl_support (self s) = true ->
  sent (world (snd (remove s))) = sent (world s) /\
  fst (remove s) = Ok false /\
  _installed (self (snd (remove s))) = false.
Proof.
  intros Hacl. unfold remove. run_monad. simpl.
  destruct (_installed (self s)) eqn:Hinst; simpl.
  - rewrite Hacl. simpl. auto.
  - rewrite Hinst. auto.
Qed.

Lemma acl_run_op gvid o s :
  _needs_acl_support (self s) = true -> no_channel_dict (self s) ->
  sent (world (snd (run_op gvid o s))) = sent (world s).
Proof.
  intros Hacl Hdict. unfold no_channel_dict in Hdict. destruct o; simpl.
  - unfold install, pon_install. run_monad. simpl.
    destruct (_gem_ids (self s)) as [[d|]|] eqn:Hg; [contradiction| |]; simpl.
    + destruct (_valid (self s) && negb (_installed (self s))); simpl;
        rewrite ?Hg; reflexivity.
    + destruct (_valid (self s) && negb (_installed (self s))); simpl;
        [|reflexivity].
      destruct (install_xml (self s)); simpl; [|reflexivity].
      rewrite Hacl. reflexivity.
  - unfold pon_install. run_monad. simpl.
    destruct (_valid (self s) && negb (_installed (self s))); simpl; [|reflexivity].
    destruct (_gem_ids (self s)) as [[d|]|] eqn:Hg; [contradiction| |];
      simpl; rewrite ?Hg; reflexivity.
  - apply acl_remove, Hacl.
  - unfold enable. run_monad. simpl.
    destruct (_installed (self s) && negb (_enabled (self s))); simpl;
      [|reflexivity].
    rewrite Hacl. reflexivity.
  - unfold disable. run_monad. simpl.
    destruct (_installed (self s) && _enabled (self s)); simpl; [|reflexivity].
    rewrite Hacl. reflexivity.
  - rewrite delete_unfold. simpl.
    destruct (acl_remove (on_self (set_valid false) s) Hacl) as (Hs & _ & _).
    simpl in Hs.
    destruct (_evc (self (snd (remove (on_self (set_valid false) s))))); exact Hs.
Qed.

Lemma decoded_part_acl m m' :
  decoded_part m' = decoded_part m ->
  _needs_acl_support m' = _needs_acl_support m /\
  (no_channel_dict m -> no_channel_dict m').
Proof.
  unfold decoded_part, _needs_acl_support, no_channel_dict. intros H.
  injection H as _ _ _ _ _ _ _ _ Hg He Hi Hd Hud Hus _ _ _ _ _ _ _ _ _ _ _.
  rewrite Hg, He, Hi, Hd, Hud, Hus. auto.
Qed.

(** X13: a descriptor that needs ACL support and has no channel dictionary
    never reaches the device: whatever sequence of lifecycle operations
    runs, nothing is sent. *)
Theorem acl_placeholder_sends_nothing gvid ops :
  forall s,
    _needs_acl_support (self s) = true ->
    no_channel_dict (self s) ->
    sent (world (exec_ops gvid ops s)) = sent (world s).
Proof.
  unfold exec_ops. induction ops as [|o ops IH]; intros s Hacl Hdict; simpl.
  - reflexivity.
  - destruct (decoded_part_acl (self s) (self (snd (run_op gvid o s)))
                (run_op_decoded gvid o s)) as [Ha Hd].
    rewrite IH; [apply acl_run_op; assumption | congruence | auto].
Qed.

Lemma acl_placeholder_sends_nothing_witness :
  _needs_acl_support (self ex_acl_state) = true /\
  sent (world (exec_ops (fun g => g)
                 [OpInstall; OpDisable; OpEnable; OpRemove; OpInstall; OpDelete]
                 ex_acl_state))
    = sent (world ex_acl_state).
Proof.
  split; [vm_compute; reflexivity|].
  apply (acl_placeholder_sends_nothing (fun g => g)
           [OpInstall; OpDisable; OpEnable; OpRemove; OpInstall; OpDelete]
           ex_acl_state).
  - vm_compute; reflexivity.
  - vm_compute. exact I.
Defined.

(** ** The bulk reclaimer *)




(** X15: when the query gets no usable answer, nothing is deleted.  A
    failed query is logged as [get-failed] and a reply that is not ok as
    [query-complete], each followed by [delete-complete]; a reply whose
    data cannot be parsed ends in [edit-config-failed], though no edit was
    sent. *)
Theorem remove_all_without_answer re_compile set_iter client regex_ w out :
  get client (sent w) get_xml = Ok out ->
  match out with
  | Failure e =>
      snd (remove_all re_compile set_iter client regex_ w)
      = {| evcs := evcs w; sent := sent w ++ [Get get_xml];
           logs := logs w ++ ["query"; "get-failed"; "delete-complete"] |}
  | Reply r =>
      (ok r = false ->
       snd (remove_all re_compile set_iter client regex_ w)
       = {| evcs := evcs w; sent := sent w ++ [Get get_xml];
            logs := logs w ++ ["query"; "query-complete"; "delete-complete"] |}) /\
      (forall e, ok r = true -> data_xml r = Raise e ->
       snd (remove_all re_compile set_iter client regex_ w)
       = {| evcs := evcs w; sent := sent w ++ [Get get_xml];
            logs := logs w ++ ["query"; "query-complete"; "edit-config-failed"] |})
  end.
Proof.
  intros Hout.
  unfold remove_all, delete_complete, request_failed, do_delete. run_monad.
  simpl. rewrite Hout. unfold add_log, add_sent. destruct out as [r|e]; simpl.
  - split.
    + intros Hok. rewrite Hok. simpl. rewrite <- !app_assoc. reflexivity.
    + intros e Hok Hdata. rewrite Hok, Hdata. simpl.
      rewrite <- !app_assoc. reflexivity.
  - rewrite <- !app_assoc. reflexivity.
Qed.

Lemma remove_all_without_answer_witness :
  snd (remove_all ex_re_compile ex_set_iter
         (scripted_client [Failure (OtherError "timeout")])
         EVC_MAP_NAME_REGEX_ALL empty_world)
  = {| evcs := ∅; sent := [Get get_xml];
       logs := ["query"; "get-failed"; "delete-complete"] |}.
Proof.
  exact (remove_all_without_answer ex_re_compile ex_set_iter
           (scripted_client [Failure (OtherError "timeout")])
           EVC_MAP_NAME_REGEX_ALL empty_world (Failure (OtherError "timeout"))
           eq_refl).
Defined.

(** X16: on a list of entries that all carry a name, the set comprehension
    of [do_delete] gives exactly the set of the names the pattern matches:
    a name is in it when it is the name of an entry and the pattern matches
    it, however often and wherever it occurs in the list. *)
Theorem matching_names_filter p ns :
  matching_names p (map entry_named ns)
  = Ok (list_to_set (map Some (List.filter p ns))) /\
  (forall names,
      matching_names p (map entry_named ns) = Ok names ->
      forall n, Some n ∈ names <-> In n ns /\ p n = true).
Proof.
  assert (matching_names p (map entry_named ns)
          = Ok (list_to_set (map Some (List.filter p ns)))) as Heq.
  { induction ns as [|n ns IH]; [reflexivity|].
    cbn [map matching_names]. rewrite IH. unfold entry_named at 1 2.
    unfold py_contains, py_getitem. simpl.
    destruct (p n); simpl; [reflexivity|].
    rewrite (left_id_L ∅ (∪)). reflexivity. }
  split; [exact Heq|].
  intros names Hnames n. rewrite Heq in Hnames. injection Hnames as <-.
  rewrite elem_of_list_to_set, list_elem_of_fmap. split.
  - intros (n' & [= <-] & Hin). apply list_elem_of_In, filter_In in Hin. exact Hin.
  - intros Hin. exists n. split; [reflexivity|].
    apply list_elem_of_In, filter_In. exact Hin.
Qed.

(** ** What the lifecycle operations send *)

Lemma extends_refl h : extends_with_edits h h.
Proof. exists []. split; [symmetry; apply app_nil_r | reflexivity]. Qed.

Lemma extends_one h r : lifecycle_request r = true -> extends_with_edits h (h ++ [r]).
Proof. intros Hr. exists [r]. split; [reflexivity | simpl; rewrite Hr; reflexivity]. Qed.

Lemma extends_trans h1 h2 h3 :
  extends_with_edits h1 h2 -> extends_with_edits h2 h3 -> extends_with_edits h1 h3.
Proof.
  intros (t1 & -> & H1) (t2 & -> & H2). exists (t1 ++ t2)%list.
  split; [symmetry; apply app_assoc | rewrite forallb_app, H1, H2; reflexivity].
Qed.

Ltac extends_leaf :=
  simpl; first [ apply extends_refl | apply extends_one; reflexivity ].

Lemma pon_install_onu_extends gvid u s :
  extends_with_edits (sent (world s)) (sent (world (snd (pon_install_onu gvid u s)))).
Proof. unfold pon_install_onu. run_monad. simpl. exec; extends_leaf. Qed.

Lemma for_each_extends {A} (body : A -> M St unit) l :
  (forall x s, extends_with_edits (sent (world s)) (sent (world (snd (body x s))))) ->
  forall s, extends_with_edits (sent (world s)) (sent (world (snd (for_each l body s)))).
Proof.
  intros Hbody. induction l as [|x l IH]; intros s; simpl; [apply extends_refl|].
  unfold bind. specialize (Hbody x s).
  destruct (body x s) as [[[]|e] s1]; simpl in *.
  - eapply extends_trans; [exact Hbody | apply IH].
  - exact Hbody.
Qed.

Lemma pon_install_extends gvid s :
  extends_with_edits (sent (world s)) (sent (world (snd (pon_install gvid s)))).
Proof.
  unfold pon_install. run_monad. simpl.
  destruct (_valid (self s) && negb (_installed (self s))); simpl;
    [|apply extends_refl].
  destruct (_gem_ids (self s)) as [[d|]|] eqn:Hg; simpl; try apply extends_refl.
  pose proof (for_each_extends (pon_install_onu gvid) d (pon_install_onu_extends gvid)
                (on_self (set_installed true) s)) as H.
  unfold on_self in H.
  destruct (for_each d (pon_install_onu gvid) _) as [[[]|e] s1]; simpl in *; exact H.
Qed.

Lemma install_extends gvid s :
  extends_with_edits (sent (world s)) (sent (world (snd (install gvid s)))).
Proof.
  unfold install. run_monad. simpl.
  destruct (_gem_ids (self s)) as [g|] eqn:Hg; simpl.
  - pose proof (pon_install_extends gvid s) as H.
    destruct (pon_install gvid s) as [[b|e] s1]; simpl in *; exact H.
  - exec; extends_leaf.
Qed.

Lemma remove_extends s :
  extends_with_edits (sent (world s)) (sent (world (snd (remove s)))).
Proof. unfold remove. run_monad. simpl. exec; extends_leaf. Qed.

Lemma enable_extends s :
  extends_with_edits (sent (world s)) (sent (world (snd (enable s)))).
Proof. unfold enable. run_monad. simpl. exec; extends_leaf. Qed.

Lemma disable_extends s :
  extends_with_edits (sent (world s)) (sent (world (snd (disable s)))).
Proof. unfold disable. run_monad. simpl. exec; extends_leaf. Qed.

Lemma delete_extends s :
  extends_with_edits (sent (world s)) (sent (world (snd (delete s)))).
Proof.
  rewrite delete_unfold. simpl.
  pose proof (remove_extends (on_self (set_valid false) s)) as H. simpl in H.
  destruct (_evc (self (snd (remove (on_self (set_valid false) s))))); exact H.
Qed.

Lemma run_op_extends gvid o s :
  extends_with_edits (sent (world s)) (sent (world (snd (run_op gvid o s)))).
Proof.
  destruct o; simpl;
    auto using install_extends, pon_install_extends, remove_extends,
               enable_extends, disable_extends, delete_extends.
Qed.

(** X17: the lifecycle operations only ever append to the history of
    requests, and what they append are edits with a lock timeout of 30 and
    either no default operation or ["remove"]: no query is sent and no
    earlier request is dropped, whatever the device answers. *)
Theorem lifecycle_requests gvid ops s :
  exists tail,
    sent (world (exec_ops gvid ops s)) = (sent (world s) ++ tail)%list /\
    forallb lifecycle_request tail = true.
Proof.
  change (extends_with_edits (sent (world s)) (sent (world (exec_ops gvid ops s)))).
  unfold exec_ops. revert s. induction ops as [|o ops IH]; intros s; simpl.
  - apply extends_refl.
  - eapply extends_trans; [apply run_op_extends | apply IH].
Qed.

(** X18: an operation called out of its state does nothing.  [install] and
    [pon_install] leave an installed or an invalid descriptor and the world
    as they are; [remove], [enable] and [disable] leave a descriptor that
    is not installed; [enable] leaves an enabled one and [disable] a
    disabled one.  The result is the flag the operation reports. *)
Theorem lifecycle_guards gvid s :
  (_installed (self s) = true ->
   install gvid s = (Ok (_valid (self s)), s) /\
   pon_install gvid s = (Ok (_valid (self s)), s)) /\
  (_valid (self s) = false ->
   install gvid s = (Ok false, s) /\ pon_install gvid s = (Ok false, s)) /\
  (_installed (self s) = false ->
   remove s = (Ok false, s) /\ enable s = (Ok false, s) /\
   disable s = (Ok false, s)) /\
  (_enabled (self s) = true -> enable s = (Ok (_installed (self s)), s)) /\
  (_enabled (self s) = false -> disable s = (Ok (_installed (self s)), s)).
Proof.
  repeat split; intros;
    match goal with Hflag : _ (self s) = _ |- _ => rename Hflag into H end;
    unfold install, pon_install, remove, enable, disable; run_monad; simpl;
    rewrite ?H, ?andb_false_r; simpl;
    destruct (_gem_ids (self s)); simpl; rewrite ?H, ?andb_false_r; simpl;
    rewrite ?H, ?andb_false_r, ?andb_true_r; try reflexivity;
    destruct (_valid (self s)); destruct (_installed (self s)); reflexivity.
Qed.

(** X19: when the transport fails during [enable] or [disable], the
    failure is raised again, the request is in the history and the
    descriptor is as it was: neither the flag nor the status changes. *)
Theorem toggle_transport_failure s f e (requested : bool) :
  _installed (self s) = true ->
  _needs_acl_support (self s) = false ->
  _flow (self s) = Some f ->
  _enabled (self s) = negb requested ->
  edit_config (netconf_client (FlowEntry.handler f)) (sent (world s))
    (if requested then enable_xml (self s) else disable_xml (self s)) None 30
    = Failure e ->
  fst ((if requested then enable else disable) s) = Raise e /\
  self (snd ((if requested then enable else disable) s)) = self s /\
  sent (world (snd ((if requested then enable else disable) s)))
    = (sent (world s)
       ++ [EditConfig (if requested then enable_xml (self s) else disable_xml (self s))
             None 30])%list.
Proof.
  intros Hinst Hacl Hflow Hen Hout. destruct requested; simpl in Hen.
  - unfold enable. run_monad. rewrite Hinst, Hen. simpl.
    rewrite Hacl. simpl. rewrite Hflow. simpl. rewrite Hout. simpl. auto.
  - unfold disable. run_monad. rewrite Hinst, Hen. simpl.
    rewrite Hacl. simpl. rewrite Hflow. simpl. rewrite Hout. simpl. auto.
Qed.

Lemma toggle_transport_failure_witness :
  _enabled (self (ex_plain_state [OpInstall]
                    [Reply reply_ok; Failure (OtherError "timeout")])) = true /\
  fst (disable (ex_plain_state [OpInstall]
                  [Reply reply_ok; Failure (OtherError "timeout")]))
    = Raise (OtherError "timeout") /\
  self (snd (disable (ex_plain_state [OpInstall]
                        [Reply reply_ok; Failure (OtherError "timeout")])))
    = self (ex_plain_state [OpInstall] [Reply reply_ok; Failure (OtherError "timeout")]).
Proof.
  split; [vm_compute; reflexivity|].
  assert (H := toggle_transport_failure
                 (ex_plain_state [OpInstall]
                    [Reply reply_ok; Failure (OtherError "timeout")])
                 (ex_flow [Reply reply_ok; Failure (OtherError "timeout")] 7 None [10])
                 (OtherError "timeout") false).
  simpl in H. destruct H as (Hr & Hs & _); try (vm_compute; reflexivity).
  split; assumption.
Defined.

(** X20: a descriptor whose channel table is the empty set cannot be fanned
    out: [pon_install] marks it installed, sends nothing and raises
    [AttributeError]; [install], which drops that failure, returns true. *)
Theorem install_channel_set gvid s :
  _gem_ids (self s) = Some GemSet ->
  _valid (self s) = true ->
  _installed (self s) = false ->
  pon_install gvid s = (Raise AttributeError, on_self (set_installed true) s) /\
  install gvid s = (Ok true, on_self (set_installed true) s).
Proof.
  intros Hgem Hvalid Hinst.
  unfold install, pon_install. run_monad. simpl.
  rewrite Hgem, Hvalid, Hinst. simpl. rewrite Hgem. simpl. rewrite Hvalid.
  split; reflexivity.
Qed.

Lemma install_channel_set_witness :
  _gem_ids (self ex_set_state) = Some GemSet /\
  _valid (self ex_set_state) = true /\
  fst (install (fun g => g) ex_set_state) = Ok true /\
  sent (world (snd (install (fun g => g) ex_set_state))) = [].
Proof.
  split; [vm_compute; reflexivity|]. split; [vm_compute; reflexivity|].
  assert (H := install_channel_set (fun g => g) ex_set_state).
  destruct H as [_ H]; try (vm_compute; reflexivity).
  rewrite H. split; vm_compute; reflexivity.
Defined.

(** ** The install document *)

Lemma init_match_untagged id flow evc ing w :
  _match_untagged (self (snd (EVCMap_init id flow evc ing w))) = true.
Proof.
  unfold EVCMap_init, init_body, _decode. run_monad. simpl. exec; reflexivity.
Qed.

(** X21: the document [install] builds for a valid descriptor, after any
    operations since its construction, always names the circuit with an
    [<evc>] element and always matches untagged traffic: the connection
    marker is not rendered and the inner VLAN id never appears as a
    [<ctag>]. *)
Theorem install_document gvid i flow evc ing w ops s :
  s = exec_ops gvid ops (snd (EVCMap_init i flow evc ing w)) ->
  _valid (self s) = true ->
  exists n,
    _evc_name (self s) = Some n /\
    install_xml (self s)
    = Ok (_xml_header None
          +:+ "<name>" +:+ fmt_opt id (_name (self s)) +:+ "</name>"
          +:+ "<enabled>" +:+ bool_xml (_enabled (self s)) +:+ "</enabled>"
          +:+ "<uni>" +:+ fmt_opt id (_uni_port (self s)) +:+ "</uni>"
          +:+ ("<evc>" +:+ n +:+ "</evc>")
          +:+ "<match-untagged>True</match-untagged>"
          +:+ _xml_trailer).
Proof.
  intros Hs Hvalid.
  assert (_evc_name (self s) <> None) as Hname.
  { rewrite Hs in Hvalid |- *.
    exact (exec_ops_names_circuit gvid ops _
             (init_names_circuit i flow evc ing w) Hvalid). }
  assert (_match_untagged (self s) = true) as Hun.
  { pose proof (exec_ops_decoded gvid ops (snd (EVCMap_init i flow evc ing w)))
      as Hdec.
    rewrite <- Hs in Hdec. unfold decoded_part in Hdec.
    injection Hdec as _ _ _ _ _ _ _ Hm _ _ _ _ _ _ _ _ _ _ _ _ _ _ _ _ _.
    rewrite Hm. apply init_match_untagged. }
  destruct (_evc_name (self s)) as [n|] eqn:Hn; [|contradiction].
  exists n. split; [reflexivity|].
  unfold install_xml, connection_xml. rewrite Hn, Hun.
  rewrite !append_assoc. reflexivity.
Qed.

Lemma install_document_witness :
  _valid (self (ex_plain_state [OpInstall; OpDisable] [])) = true /\
  exists n,
    _evc_name (self (ex_plain_state [OpInstall; OpDisable] [])) = Some n /\
    install_xml (self (ex_plain_state [OpInstall; OpDisable] []))
    = Ok (_xml_header None
          +:+ "<name>"
          +:+ fmt_opt id (_name (self (ex_plain_state [OpInstall; OpDisable] [])))
          +:+ "</name>"
          +:+ "<enabled>"
          +:+ bool_xml (_enabled (self (ex_plain_state [OpInstall; OpDisable] [])))
          +:+ "</enabled>"
          +:+ "<uni>"
          +:+ fmt_opt id (_uni_port (self (ex_plain_state [OpInstall; OpDisable] [])))
          +:+ "</uni>"
          +:+ ("<evc>" +:+ n +:+ "</evc>")
          +:+ "<match-untagged>True</match-untagged>"
          +:+ _xml_trailer).
Proof.
  split; [vm_compute; reflexivity|].
  apply (install_document (fun g => g) 5 (Some (ex_flow [] 7 None [10]))
           (Some 1%nat) true ex_world [OpInstall; OpDisable]
           (ex_plain_state [OpInstall; OpDisable] [])).
  - unfold ex_plain_state. reflexivity.
  - vm_compute; reflexivity.
Defined.

(** ** The entries of the fan-out *)

Lemma pon_entry_xml_inj gvid m onu_id gem_id onu_id' gem_id' entry :
  pon_entry_xml gvid m onu_id gem_id = Ok entry ->
  pon_entry_xml gvid m onu_id' gem_id' = Ok entry ->
  onu_id = onu_id' /\ gem_id = gem_id'.
Proof.
  unfold pon_entry_xml. destruct (connection_xml m) as [conn|e]; [|discriminate].
  intros H1 H2. rewrite <- H1 in H2. clear H1. injection H2 as H.
  destruct (_c_tag m) as [c|]; rewrite !append_assoc in H.
  all: symmetry in H.
  all: do 3 apply append_cancel_l in H.
  all: change ("." +:+ ?x) with (String "."%char x) in H.
  all: injection H as H.
  all: apply (fmt_Z_sep_inj "."%char) in H; [|reflexivity].
  all: destruct H as [<- H].
  all: change ("</name>" +:+ ?x) with (String "<"%char ("/name>" +:+ x)) in H.
  all: apply (fmt_Z_sep_inj "<"%char) in H; [|reflexivity].
  all: destruct H as [<- _]; auto.
Qed.

(** X22: the entries of the fan-out are told apart by their ONU and GEM
    ids: for two different pairs of ids the entries of one descriptor are
    different texts. *)
Theorem pon_entry_xml_distinct gvid m onu_id gem_id onu_id' gem_id' entry entry' :
  (onu_id, gem_id) <> (onu_id', gem_id') ->
  pon_entry_xml gvid m onu_id gem_id = Ok entry ->
  pon_entry_xml gvid m onu_id' gem_id' = Ok entry' ->
  entry <> entry'.
Proof.
  intros Hne H1 H2 Heq. rewrite <- Heq in H2.
  destruct (pon_entry_xml_inj gvid m _ _ _ _ _ H1 H2) as [-> ->].
  apply Hne. reflexivity.
Qed.

Lemma pon_entry_xml_distinct_witness :
  exists entry entry',
    pon_entry_xml (fun g => g) (self (ex_pon_state [])) 1 2001 = Ok entry /\
    pon_entry_xml (fun g => g) (self (ex_pon_state [])) 1 2002 = Ok entry' /\
    entry <> entry'.
Proof.
  destruct (pon_entry_xml (fun g => g) (self (ex_pon_state [])) 1 2001)
    as [entry|e] eqn:He; [|vm_compute in He; discriminate He].
  destruct (pon_entry_xml (fun g => g) (self (ex_pon_state [])) 1 2002)
    as [entry'|e] eqn:He'; [|vm_compute in He'; discriminate He'].
  exists entry, entry'. split; [reflexivity|]. split; [reflexivity|].
  apply (pon_entry_xml_distinct (fun g => g) (self (ex_pon_state [])) 1 2001 1 2002
           entry entry'); [intros H; discriminate H | exact He | exact He'].
Defined.
